(** * Lockfile reading, branch merging and foreign-lockfile import

    A shallow embedding of [packages/lockfile-file/src/read.ts] and of the
    [import] command of pnpm, with the properties the specification states
    about them. *)

From Stdlib Require Import String Ascii List Bool.
From stdpp Require Import base option list strings pretty gmap.

Set Warnings "-register-all,-clear-no-such-hyp".
Local Open Scope string_scope.

(** ** JavaScript values

    What [yaml.load] and [JSON.parse] hand to the code: a number is kept as
    the text [Number.prototype.toString] prints for it, the only thing the
    code ever asks of a number besides its truthiness; a string is the sequence
    of its code units; an object is the finite map of its own enumerable
    properties; an array has its items and, as any object, the named
    properties assigned to it. *)
Module JS.

Inductive value : Type :=
  | VUndef : value
  | VNull : value
  | VBool : bool -> value
  | VNum : string -> value
  | VStr : string -> value
  | VArr : list value -> gmap string value -> value
  | VObj : gmap string value -> value.

(** [x ? a : b] on a value: [undefined], [null], [false], [0], [NaN] and the
    empty string are the falsy ones. *)
Definition truthy (v : value) : bool :=
  match v with
  | VUndef | VNull => false
  | VBool b => b
  | VNum r => negb (String.eqb r "0" || String.eqb r "NaN")
  | VStr s => negb (String.eqb s "")
  | VArr _ _ | VObj _ => true
  end.

(** [v == null]. *)
Definition nullish (v : value) : bool :=
  match v with
  | VUndef | VNull => true
  | _ => false
  end.

(** [typeof v === 'undefined']. *)
Definition is_undefined (v : value) : bool :=
  match v with
  | VUndef => true
  | _ => false
  end.

(** [v?.[k]] for a key [k] that is no array index and that neither
    [Object.prototype] nor the array and string prototypes define (the code
    reads [specifiers], [dependenciesMeta], the dependency fields,
    [lockfileVersion] and [packages]): an own property of an object or an
    array, [undefined] anywhere else. *)
Definition get (v : value) (k : string) : value :=
  match v with
  | VObj o | VArr _ o => default VUndef (o !! k)
  | _ => VUndef
  end.

(** The items of an array or the code units of a string as properties
    ["0"], ["1"], ... *)
Definition indexed (l : list value) : gmap string value :=
  list_to_map (imap (fun i x => (pretty i, x)) l).

Definition units (s : string) : list value :=
  map (fun c => VStr (String c EmptyString)) (list_ascii_of_string s).

(** What [{...v}] copies: the own enumerable properties; nothing for
    [undefined], [null], a boolean or a number. *)
Definition own_props (v : value) : gmap string value :=
  match v with
  | VObj o => o
  | VArr l o => indexed l ∪ o
  | VStr s => indexed (units s)
  | _ => ∅
  end.

(** The property names every plain object inherits from [Object.prototype];
    reading one of them on [{}] yields a function (or, for [__proto__], the
    prototype itself), all of them truthy. *)
Definition Object_prototype_keys : list string :=
  [ "constructor"; "__defineGetter__"; "__defineSetter__"; "hasOwnProperty";
    "__lookupGetter__"; "__lookupSetter__"; "isPrototypeOf";
    "propertyIsEnumerable"; "toString"; "valueOf"; "__proto__";
    "toLocaleString" ].

Definition inherited (k : string) : bool :=
  bool_decide (k ∈ Object_prototype_keys).

End JS.

(** ** Effects: thrown errors and log events *)

Inductive error : Type :=
  | ErrnoException (code : string)
      (* what [fs.readFile] rejects with *)
  | PnpmError (code message : string)
      (* [new PnpmError(code, message)] *)
  | LockfileBreakingChangeError (filename : string)
      (* [new LockfileBreakingChangeError(filename)] *)
  | TypeError (message : string).
      (* thrown by the runtime or by a library *)

(** [err.code]: [PnpmError] prefixes its code.
    Modelled from the spec: [LockfileBreakingChangeError] is declared in
    [./errors]; it is the error of kind LockfileBreakingChange that carries
    the file path, a [PnpmError] as the others. *)
Definition error_code (e : error) : option string :=
  match e with
  | ErrnoException c => Some c
  | PnpmError c _ => Some ("ERR_PNPM_" ++ c)
  | LockfileBreakingChangeError _ => Some "ERR_PNPM_LOCKFILE_BREAKING_CHANGE"
  | TypeError _ => None
  end.

Inductive log_event : Type :=
  | LogInfo (message prefix : string)
  | LogWarn (message prefix : string).

(** A computation logs some events and then returns or throws. *)
Definition M (A : Type) : Type := (list log_event * (error + A))%type.

Definition ret {A} (a : A) : M A := ([], inr a).
Definition throw {A} (e : error) : M A := ([], inl e).
Definition tell (l : log_event) : M unit := ([l], inr tt).
Definition lift {A} (r : error + A) : M A := ([], r).

Definition bind {A B} (m : M A) (k : A -> M B) : M B :=
  match m with
  | (l, inl e) => (l, inl e)
  | (l, inr a) => let '(l', r) := k a in (app l l', r)
  end.

Declare Scope m_scope.
Delimit Scope m_scope with m.
Notation "x <- m ;; k" := (bind m (fun x => k))
  (at level 100, m at next level, right associativity) : m_scope.
Notation "m ;;; k" := (bind m (fun _ => k))
  (at level 100, right associativity) : m_scope.

Definition logs {A} (m : M A) : list log_event := fst m.
Definition outcome {A} (m : M A) : error + A := snd m.

(** ** read.ts *)
Module Read.
Import JS.

(** The options of [readWantedLockfile] and of
    [readWantedLockfileAndAutofixConflicts]; an option the caller leaves out
    is [None] or [false].  A number is kept as its printed form. *)
Record WantedOpts : Type := {
  w_wantedVersion : option string;
  w_ignoreIncompatible : bool;
  useGitBranchLockfile : bool;
  mergeGitBranchLockfiles : bool
}.

(** The collaborators [read.ts] imports: the file system, the YAML parser,
    the merge-conflict resolver of [./gitMergeFile], the two version
    libraries, the branch-lockfile helpers and [path.join].  A function that
    can throw returns the thrown value on the left. *)
Record Collaborators : Type := {
  WANTED_LOCKFILE : string;
  path_join : string -> string -> string;
  readFile : string -> error + string;
  stripBom : string -> string;
  yaml_load : string -> string + value;
    (* left: the [message] of the exception thrown *)
  isDiff : string -> bool;
  autofixMergeConflicts : string -> error + value;
  object_toString : value -> error + string;
    (* [v.toString()] for an array or an object *)
  comverToSemver : string -> string;
  semver_major : string -> error + N;
  semver_gt : string -> string -> error + bool;
  getWantedLockfileName : WantedOpts -> error + string;
  getGitBranchLockfileNames : string -> error + list string
}.

(** The options of [_read]. *)
Record ReadOpts : Type := {
  opt_autofixMergeConflicts : bool;
  wantedVersion : option string;
  ignoreIncompatible : bool
}.

Record ReadResult : Type := {
  lockfile : value;      (* [VNull] is the absent lockfile *)
  hadConflicts : bool
}.

(** Modelled from the spec: the constant [DEPENDENCIES_FIELDS] of
    [@pnpm/types], the fixed list of dependency-field kinds (regular, dev,
    optional) the migration moves. *)
Definition DEPENDENCIES_FIELDS : list string :=
  [ "optionalDependencies"; "dependencies"; "devDependencies" ].

(** Lines 142-147, one round of the loop: the state is the root object and
    the record [lockfile.importers['.']] the loop fills. *)
Definition move_field (st : gmap string value * gmap string value)
    (depType : string) : gmap string value * gmap string value :=
  let '(root, importer) := st in
  if nullish (default VUndef (root !! depType)) then (root, importer)
  else (delete depType root,
        <[depType := default VUndef (root !! depType)]> importer).

(** Lines 135-147 on the own properties of the document.
    [lockfile.importers] holds the record the loop goes on filling, so the
    root's [importers] is written with the final record.  No dependency
    field is called [importers]. *)
Definition migrate_props (o : gmap string value) : gmap string value :=
  let importer0 : gmap string value :=
    <["dependenciesMeta" := default VUndef (o !! "dependenciesMeta")]>
      (<["specifiers" := default VUndef (o !! "specifiers")]> ∅) in
  let st := fold_left move_field DEPENDENCIES_FIELDS
              (delete "specifiers" o, importer0) in
  <["importers" := VObj (<["." := VObj (snd st)]> ∅)]> (fst st).

(** Lines 134-148. *)
Definition migrate (doc : value) : value :=
  if is_undefined (get doc "specifiers") then doc
  else match doc with
  | VObj o => VObj (migrate_props o)
  | VArr l o => VArr l (migrate_props o)
  | _ => doc
  end.

(** The packages of a lockfile, as [{...lockfile.packages}] copies them. *)
Abbreviation packages_of v := (own_props (get v "packages")).

(** *** Promises

    Above [Promise.all] a call settles: it is fulfilled, or rejected with
    the reason that was raised first; the reads of [Promise.all] run
    concurrently, so the reasons it can reject with are those of all its
    rejected members, here in enumeration order.  Log events are those of
    [_read] and are not followed further up. *)
Inductive settled (A : Type) : Type :=
  | Fulfilled (a : A)
  | Rejected (reasons : list error).
Arguments Fulfilled {A} a.
Arguments Rejected {A} reasons.

Definition await {A B} (p : settled A) (k : A -> settled B) : settled B :=
  match p with
  | Fulfilled a => k a
  | Rejected rs => Rejected rs
  end.

Definition settle {A} (r : error + A) : settled A :=
  match r with
  | inr a => Fulfilled a
  | inl e => Rejected [e]
  end.

Definition rejections {A} (ps : list (error + A)) : list error :=
  omap (fun p => match p with inl e => Some e | inr _ => None end) ps.

Definition fulfilments {A} (ps : list (error + A)) : list A :=
  omap (fun p => match p with inl _ => None | inr a => Some a end) ps.

Definition Promise_all {A} (ps : list (error + A)) : settled (list A) :=
  match rejections ps with
  | [] => Fulfilled (fulfilments ps)
  | rs => Rejected rs
  end.

Section WithCollaborators.
Context (E : Collaborators).
Local Open Scope m_scope.

(** [(v ?? 0).toString()]. *)
Definition toString_or_0 (v : value) : M string :=
  match v with
  | VUndef | VNull => ret "0"
  | VBool b => ret (if b then "true" else "false")
  | VNum r => ret r
  | VStr s => ret s
  | VArr _ _ | VObj _ => lift (object_toString E v)
  end.

(** The absent lockfile, as lines 112-115 and 168 return it. *)
Definition absent : ReadResult := {| lockfile := VNull; hadConflicts := false |}.

(** The warnings of lines 154-158 and 164-167. *)
Definition downgrade_warning (w prefix : string) : log_event :=
  LogWarn ("Your " ++ WANTED_LOCKFILE E
           ++ " was generated by a newer version of pnpm. "
           ++ "It is a compatible version but it might get downgraded to version "
           ++ w) prefix.

Definition ignoring_warning (lockfilePath prefix : string) : log_event :=
  LogWarn ("Ignoring not compatible lockfile at " ++ lockfilePath) prefix.

(** The message of lines 128-131 and the error of line 124. *)
Definition merged_info (prefix : string) : log_event :=
  LogInfo ("Merge conflict detected in " ++ WANTED_LOCKFILE E
           ++ " and successfully merged") prefix.

Definition quote : string := String (ascii_of_nat 34) EmptyString.

Definition broken_lockfile (lockfilePath message : string) : error :=
  PnpmError "BROKEN_LOCKFILE"
    ("The lockfile at " ++ quote ++ lockfilePath ++ quote ++ " is broken: "
     ++ message).

(** Lines 105-116: the raw text, or [None] when the file does not exist. *)
Definition read_raw (lockfilePath : string) : M (option string) :=
  match readFile E lockfilePath with
  | inr content => ret (Some (stripBom E content))
  | inl err =>
      if bool_decide (error_code err = Some "ENOENT") then ret None
      else throw err
  end.

(** Lines 119-132. *)
Definition parse (lockfilePath prefix : string) (opts : ReadOpts)
    (lockfileRawContent : string) : M (value * bool) :=
  match yaml_load E lockfileRawContent with
  | inr doc => ret (doc, false)
  | inl message =>
      if negb (opt_autofixMergeConflicts opts)
         || negb (isDiff E lockfileRawContent)
      then throw (broken_lockfile lockfilePath message)
      else
        doc <- lift (autofixMergeConflicts E lockfileRawContent) ;;
        tell (merged_info prefix) ;;;
        ret (doc, true)
  end.

(** Lines 163-170. *)
Definition incompatible (lockfilePath prefix : string) (opts : ReadOpts)
    : M ReadResult :=
  if ignoreIncompatible opts then
    tell (ignoring_warning lockfilePath prefix) ;;;
    ret absent
  else throw (LockfileBreakingChangeError lockfilePath).

(** Lines 149-171. *)
Definition check_version (lockfilePath prefix : string) (opts : ReadOpts)
    (doc : value) (conflicts : bool) : M ReadResult :=
  if truthy doc then
    s <- toString_or_0 (get doc "lockfileVersion") ;;
    let lockfileSemver := comverToSemver E s in
    same_major <-
      match wantedVersion opts with
      | None => ret true
      | Some w =>
          m1 <- lift (semver_major E lockfileSemver) ;;
          m2 <- lift (semver_major E (comverToSemver E w)) ;;
          ret (N.eqb m1 m2)
      end ;;
    if same_major : bool then
      match wantedVersion opts with
      | None => ret tt
      | Some w =>
          newer <- lift (semver_gt E lockfileSemver (comverToSemver E w)) ;;
          if newer : bool then tell (downgrade_warning w prefix)
          else ret tt
      end ;;;
      ret {| lockfile := doc; hadConflicts := conflicts |}
    else incompatible lockfilePath prefix opts
  else incompatible lockfilePath prefix opts.

(** Lines 93-171. *)
Definition _read (lockfilePath prefix : string) (opts : ReadOpts)
    : M ReadResult :=
  raw <- read_raw lockfilePath ;;
  match raw with
  | None => ret absent
  | Some lockfileRawContent =>
      p <- parse lockfilePath prefix opts lockfileRawContent ;;
      check_version lockfilePath prefix opts (migrate (fst p)) (snd p)
  end.

(** Lines 219-234. *)
Definition _readGitBranchLockfiles (lockfileDir prefix : string)
    (opts : ReadOpts) : settled (list ReadResult) :=
  await (settle (getGitBranchLockfileNames E lockfileDir)) (fun files =>
  Promise_all
    (map (fun file => outcome (_read (path_join E lockfileDir file) prefix opts))
       files)).

(** [v.packages = x] in a module, which is strict code: an object or an
    array takes the property, a primitive value refuses it. *)
Definition assign_packages (v x : value) : error + value :=
  match v with
  | VObj o => inr (VObj (<["packages" := x]> o))
  | VArr l o => inr (VArr l (<["packages" := x]> o))
  | _ => inl (TypeError "Cannot create property 'packages'")
  end.

(** Lines 208-213, one round of the loop; in [{...a, ...b}] the properties
    of [b] win. *)
Definition merge_packages (acc : error + value) (gitBranchLockfile : value)
    : error + value :=
  match acc with
  | inl e => inl e
  | inr lockfile =>
      if truthy (get gitBranchLockfile "packages") then
        assign_packages lockfile
          (VObj (packages_of gitBranchLockfile ∪ packages_of lockfile))
      else inr lockfile
  end.

(** Lines 192-217. *)
Definition _mergeGitBranchLockfiles (base : value)
    (lockfileDir prefix : string) (opts : ReadOpts) : settled value :=
  if negb (truthy base) then Fulfilled base
  else
    await (_readGitBranchLockfiles lockfileDir prefix opts) (fun results =>
    settle (fold_left merge_packages (map lockfile results) (inr base))).

(** What [_read] and [_mergeGitBranchLockfiles] see of the options record
    of a public function: it has no [autofixMergeConflicts] of its own. *)
Definition read_opts (opts : WantedOpts) (autofix : bool) : ReadOpts :=
  {| opt_autofixMergeConflicts := autofix;
     wantedVersion := w_wantedVersion opts;
     ignoreIncompatible := w_ignoreIncompatible opts |}.

(** Lines 44-50 and 73-79. *)
Definition lockfileNames (opts : WantedOpts) : settled (list string) :=
  if useGitBranchLockfile opts then
    await (settle (getWantedLockfileName E opts)) (fun gitBranchLockfileName =>
    if bool_decide (gitBranchLockfileName <> WANTED_LOCKFILE E)
    then Fulfilled [gitBranchLockfileName; WANTED_LOCKFILE E]
    else Fulfilled [WANTED_LOCKFILE E])
  else Fulfilled [WANTED_LOCKFILE E].

(** Lines 51-61: the loop over the candidate names, [result] being the
    variable of that name. *)
Fixpoint autofix_loop (pkgPath : string) (opts : WantedOpts)
    (names : list string) (result : ReadResult) : settled ReadResult :=
  match names with
  | [] => Fulfilled result
  | lockfileName :: rest =>
      await (settle (outcome (_read (path_join E pkgPath lockfileName) pkgPath
                                (read_opts opts true)))) (fun result =>
      if truthy (lockfile result) then
        if mergeGitBranchLockfiles opts then
          await (_mergeGitBranchLockfiles (lockfile result) pkgPath pkgPath
                   (read_opts opts false)) (fun merged =>
          Fulfilled {| lockfile := merged; hadConflicts := hadConflicts result |})
        else Fulfilled result
      else autofix_loop pkgPath opts rest result)
  end.

(** Lines 32-62. *)
Definition readWantedLockfileAndAutofixConflicts (pkgPath : string)
    (opts : WantedOpts) : settled ReadResult :=
  await (lockfileNames opts) (fun names =>
  autofix_loop pkgPath opts names {| lockfile := VNull; hadConflicts := false |}).

(** Lines 80-90. *)
Fixpoint wanted_loop (pkgPath : string) (opts : WantedOpts)
    (names : list string) (current : value) : settled value :=
  match names with
  | [] => Fulfilled current
  | lockfileName :: rest =>
      await (settle (outcome (_read (path_join E pkgPath lockfileName) pkgPath
                                (read_opts opts false)))) (fun result =>
      if truthy (lockfile result) then
        if mergeGitBranchLockfiles opts then
          _mergeGitBranchLockfiles (lockfile result) pkgPath pkgPath
            (read_opts opts false)
        else Fulfilled (lockfile result)
      else wanted_loop pkgPath opts rest (lockfile result))
  end.

(** Lines 64-91. *)
Definition readWantedLockfile (pkgPath : string) (opts : WantedOpts)
    : settled value :=
  await (lockfileNames opts) (fun names => wanted_loop pkgPath opts names VNull).

(** Lines 21-30. *)
Definition readCurrentLockfile (virtualStoreDir : string)
    (wanted : option string) (ignore : bool) : M value :=
  r <- _read (path_join E virtualStoreDir "lock.yaml") virtualStoreDir
         {| opt_autofixMergeConflicts := false;
            wantedVersion := wanted;
            ignoreIncompatible := ignore |} ;;
  ret (lockfile r).

End WithCollaborators.

(** Lines 179-185, one round of [reduce]: [acc[importerId] = {...}] on the
    own properties of [acc]; assigning an object to [__proto__] sets the
    prototype and creates no property. *)
Definition empty_importer : value :=
  VObj (<["specifiers" := VObj ∅]> (<["dependencies" := VObj ∅]> ∅)).

Definition add_importer (acc : gmap string value) (importerId : string)
    : gmap string value :=
  if String.eqb importerId "__proto__" then acc
  else <[importerId := empty_importer]> acc.

(** Lines 173-190; [LOCKFILE_VERSION] is the constant of
    [@pnpm/constants], [lockfileVersion] a number in its printed form. *)
Definition createLockfileObject (LOCKFILE_VERSION : value)
    (importerIds : list string) (lockfileVersion : string) : value :=
  let importers := fold_left add_importer importerIds ∅ in
  VObj (<["lockfileVersion" :=
            if truthy (VNum lockfileVersion) then VNum lockfileVersion
            else LOCKFILE_VERSION]>
          (<["importers" := VObj importers]> ∅)).

(** The same collaborators with another version library. *)
Definition with_semver (E : Collaborators)
    (major : string -> error + N) (gt : string -> string -> error + bool)
    : Collaborators :=
  {| WANTED_LOCKFILE := WANTED_LOCKFILE E;
     path_join := path_join E;
     readFile := readFile E;
     stripBom := stripBom E;
     yaml_load := yaml_load E;
     isDiff := isDiff E;
     autofixMergeConflicts := autofixMergeConflicts E;
     object_toString := object_toString E;
     comverToSemver := comverToSemver E;
     semver_major := major;
     semver_gt := gt;
     getWantedLockfileName := getWantedLockfileName E;
     getGitBranchLockfileNames := getGitBranchLockfileNames E |}.

End Read.

(** ** A concrete set of collaborators

    A file system given as a table, a parser and a conflict resolver given
    as tables over the raw text, and the two version libraries on plain
    [major.minor.patch] strings.  The general theorems quantify over every
    [Collaborators]; this instance runs the scenarios of the specification
    and serves as their witness. *)
Module Demo.
Import JS Read.

Definition digit (c : ascii) : option N :=
  let n := N_of_ascii c in
  if (48 <=? n)%N && (n <=? 57)%N then Some (n - 48)%N else None.

Fixpoint digits (acc : N) (s : string) : option N :=
  match s with
  | EmptyString => Some acc
  | String c rest =>
      match digit c with
      | Some d => digits (acc * 10 + d)%N rest
      | None => None
      end
  end.

Definition number (s : string) : option N :=
  match s with
  | EmptyString => None
  | _ => digits 0%N s
  end.

(** Splits at every ["."]. *)
Fixpoint fields (cur : string) (s : string) : list string :=
  match s with
  | EmptyString => [String.rev cur]
  | String c rest =>
      if Ascii.eqb c "."%char then String.rev cur :: fields EmptyString rest
      else fields (String c cur) rest
  end.

Definition parse_semver (s : string) : option (N * N * N) :=
  match fields EmptyString s with
  | [a; b; c] =>
      match number a, number b, number c with
      | Some x, Some y, Some z => Some (x, y, z)
      | _, _, _ => None
      end
  | _ => None
  end.

Definition invalid (s : string) : error := TypeError ("Invalid Version: " ++ s).

Definition major (s : string) : error + N :=
  match parse_semver s with
  | Some (x, _, _) => inr x
  | None => inl (invalid s)
  end.

Definition triple_gt (a b : N * N * N) : bool :=
  let '(a1, a2, a3) := a in
  let '(b1, b2, b3) := b in
  (b1 <? a1)%N
  || ((a1 =? b1)%N && ((b2 <? a2)%N || ((a2 =? b2)%N && (b3 <? a3)%N))).

Definition gt (a b : string) : error + bool :=
  match parse_semver a, parse_semver b with
  | Some x, Some y => inr (triple_gt x y)
  | None, _ => inl (invalid a)
  | _, None => inl (invalid b)
  end.

Definition has_dot (s : string) : bool :=
  existsb (Ascii.eqb "."%char) (list_ascii_of_string s).

Definition comver (s : string) : string :=
  if has_dot s then s ++ ".0" else s ++ ".0.0".

Definition lookup_or {A} (d : A) (k : string) (t : list (string * A)) : A :=
  match find (fun p => String.eqb (fst p) k) t with
  | Some p => snd p
  | None => d
  end.

(** [files] maps a path to what reading it gives, [docs] a raw text to what
    the parser gives, [fixes] a raw text to what the resolver gives (a text
    is taken to carry conflict markers exactly when it is listed there),
    [branches] is the enumeration of the branch lockfiles. *)
Definition collaborators
    (files : list (string * (error + string)))
    (docs : list (string * (string + value)))
    (fixes : list (string * value))
    (branches : list string) : Collaborators :=
  {| WANTED_LOCKFILE := "pnpm-lock.yaml";
     path_join := fun a b => a ++ "/" ++ b;
     readFile := fun p => lookup_or (inl (ErrnoException "ENOENT")) p files;
     stripBom := fun s => s;
     yaml_load := fun s => lookup_or (inl "unexpected end of the stream") s docs;
     isDiff := fun s => existsb (fun p => String.eqb (fst p) s) fixes;
     autofixMergeConflicts := fun s =>
       lookup_or (inl (TypeError "no conflict")) s
         (map (fun p => (fst p, inr (snd p))) fixes);
     object_toString := fun _ => inr "[object Object]";
     comverToSemver := comver;
     semver_major := major;
     semver_gt := gt;
     getWantedLockfileName := fun _ => inr "pnpm-lock.yaml";
     getGitBranchLockfileNames := fun _ => inr branches |}.

Definition obj (l : list (string * value)) : value := VObj (list_to_map l).

Definition with_version (v : string) : value :=
  obj [("lockfileVersion", VNum v)].

Definition opts (autofix : bool) (wanted : option string) (ignore : bool)
    : ReadOpts :=
  {| opt_autofixMergeConflicts := autofix;
     wantedVersion := wanted;
     ignoreIncompatible := ignore |}.

(** One lockfile, with text ["raw"], parsed to [doc]. *)
Definition one_file (doc : value) : Collaborators :=
  collaborators [("p/pnpm-lock.yaml", inr "raw")] [("raw", inr doc)] [] [].

(** One lockfile whose text carries conflict markers and does not parse;
    the resolver makes [doc] of it. *)
Definition conflicted_file (doc : value) : Collaborators :=
  collaborators [("p/pnpm-lock.yaml", inr "<<<<<<< HEAD")] []
    [("<<<<<<< HEAD", doc)] [].

Definition conflicted : Collaborators := conflicted_file (with_version "6").

(** A lockfile with two branch lockfiles beside it, each file's text being
    its own name. *)
Definition with_packages (l : list (string * value)) : value :=
  obj [("lockfileVersion", VNum "5.4"); ("packages", obj l)].

Definition base_lockfile : gmap string value :=
  list_to_map
    [("lockfileVersion", VNum "5.4");
     ("importers", obj [(".", obj [("specifiers", obj [])])]);
     ("packages", obj [("A", VStr "v1")])].

Definition branched : Collaborators :=
  collaborators
    [("p/pnpm-lock.yaml", inr "base");
     ("p/pnpm-lock.b1.yaml", inr "b1");
     ("p/pnpm-lock.b2.yaml", inr "b2")]
    [("base", inr (VObj base_lockfile));
     ("b1", inr (with_packages [("B", VStr "v1")]));
     ("b2", inr (with_packages [("A", VStr "v2")]))]
    []
    ["pnpm-lock.b1.yaml"; "pnpm-lock.b2.yaml"].

(** The same, the first branch lockfile carrying conflict markers that the
    resolver could resolve. *)
Definition conflicted_branch : Collaborators :=
  collaborators
    [("p/pnpm-lock.yaml", inr "base");
     ("p/pnpm-lock.b1.yaml", inr "<<<<<<< HEAD");
     ("p/pnpm-lock.b2.yaml", inr "b2")]
    [("base", inr (VObj base_lockfile));
     ("b2", inr (with_packages [("A", VStr "v2")]))]
    [("<<<<<<< HEAD", with_packages [("B", VStr "v1")])]
    ["pnpm-lock.b1.yaml"; "pnpm-lock.b2.yaml"].

(** The same directory, the first branch lockfile unreadable and the
    second carrying the conflict markers. *)
Definition unreadable_branch : Collaborators :=
  collaborators
    [("p/pnpm-lock.yaml", inr "base");
     ("p/pnpm-lock.b1.yaml", inl (ErrnoException "EACCES"));
     ("p/pnpm-lock.b2.yaml", inr "<<<<<<< HEAD")]
    [("base", inr (VObj base_lockfile))]
    [("<<<<<<< HEAD", with_packages [("B", VStr "v1")])]
    ["pnpm-lock.b1.yaml"; "pnpm-lock.b2.yaml"].

Definition wanted_opts (merge : bool) : WantedOpts :=
  {| w_wantedVersion := Some "5.4";
     w_ignoreIncompatible := false;
     useGitBranchLockfile := false;
     mergeGitBranchLockfiles := merge |}.

End Demo.

(** ** The import command: preferred versions from a foreign lockfile *)
Module ImportCommand.

(** [interface LockedPackage] and [LockedPackagesMap]; the map lists its
    entries in the order [Object.keys] gives them.  A [dependencies] that is
    missing or [null] is [None]. *)
Inductive LockedPackage : Type :=
  | mkLockedPackage (version : string)
      (dependencies : option (list (string * LockedPackage))).

Definition version (p : LockedPackage) : string :=
  match p with mkLockedPackage v _ => v end.

Definition dependencies (p : LockedPackage)
    : option (list (string * LockedPackage)) :=
  match p with mkLockedPackage _ d => d end.

(** [interface YarnLockPackage] and [YarnPackgeLock]. *)
Record YarnLockPackage : Type := {
  yarn_version : string;
  resolved : string;
  integrity : string;
  yarn_dependencies : option (list (string * string))
}.

(** A [Set] of strings: its members in insertion order, each once. *)
Definition Set_add (v : string) (s : list string) : list string :=
  if bool_decide (v ∈ s) then s else app s [v].

(** [versionsByPackageNames]: the own properties of an object created as
    [{}], which inherits those of [Object.prototype]. *)
Definition record_version (packageName v : string)
    (versionsByPackageNames : gmap string (list string))
    : error + gmap string (list string) :=
  match versionsByPackageNames !! packageName with
  | Some versions =>
      inr (<[packageName := Set_add v versions]> versionsByPackageNames)
  | None =>
      if JS.inherited packageName then
        (* the inherited value is truthy, no [Set] is created, and it has
           no [add] *)
        inl (TypeError "versionsByPackageNames[packageName].add is not a function")
      else inr (<[packageName := [v]]> versionsByPackageNames)
  end.

(** Lines 165-170. *)
Fixpoint record_children (deps : list (string * LockedPackage))
    (acc : gmap string (list string)) : error + gmap string (list string) :=
  match deps with
  | [] => inr acc
  | (packageName, child) :: rest =>
      match record_version packageName (version child) acc with
      | inl e => inl e
      | inr acc' => record_children rest acc'
      end
  end.

(** Lines 158-174. *)
Fixpoint getAllVersionsByPackageNames (npmPackageLock : LockedPackage)
    (versionsByPackageNames : gmap string (list string))
    : error + gmap string (list string) :=
  match npmPackageLock with
  | mkLockedPackage _ None => inr versionsByPackageNames
  | mkLockedPackage _ (Some deps) =>
      match record_children deps versionsByPackageNames with
      | inl e => inl e
      | inr recorded =>
          (fix descend (l : list (string * LockedPackage))
               (acc : gmap string (list string)) :=
             match l with
             | [] => inr acc
             | (_, child) :: rest =>
                 match getAllVersionsByPackageNames child acc with
                 | inl e => inl e
                 | inr acc' => descend rest acc'
                 end
             end) deps recorded
      end
  end.

(** [s.lastIndexOf('@')], [-1] when there is none. *)
Fixpoint lastIndexOf_from (i : Z) (found : Z) (s : string) : Z :=
  match s with
  | EmptyString => found
  | String c rest =>
      lastIndexOf_from (i + 1)%Z
        (if Ascii.eqb c "@"%char then i else found) rest
  end.

Definition lastIndexOf_at (s : string) : Z := lastIndexOf_from 0%Z (-1)%Z s.

(** [s.substring(from, to)]: both ends are clamped to the string and
    swapped when out of order. *)
Definition substring (from to : Z) (s : string) : string :=
  let len := Z.of_nat (String.length s) in
  let clamp z := Z.max 0%Z (Z.min z len) in
  let lo := Z.min (clamp from) (clamp to) in
  let hi := Z.max (clamp from) (clamp to) in
  String.substring (Z.to_nat lo) (Z.to_nat (hi - lo)%Z) s.

(** Line 183. *)
Definition pkgName (packageName : string) : string :=
  substring 0%Z (lastIndexOf_at packageName) packageName.

(** Lines 176-189. *)
Fixpoint getAllVersionsFromYarnLockFile
    (yarnPackageLock : list (string * YarnLockPackage))
    (versionsByPackageNames : gmap string (list string))
    : error + gmap string (list string) :=
  match yarnPackageLock with
  | [] => inr versionsByPackageNames
  | (packageName, entry) :: rest =>
      match record_version (pkgName packageName) (yarn_version entry)
              versionsByPackageNames with
      | inl e => inl e
      | inr acc => getAllVersionsFromYarnLockFile rest acc
      end
  end.

(** [acc[version] = 'version']: assigning a string to [__proto__] goes to
    the inherited setter, which ignores it. *)
Definition tag_version (acc : gmap string string) (v : string)
    : gmap string string :=
  if String.eqb v "__proto__" then acc else <[v := "version"]> acc.

(** Lines 143-156, as own properties: assigning an object to
    [preferredVersions['__proto__']] creates no property. *)
Definition getPreferredVersions
    (versionsByPackageNames : gmap string (list string))
    : gmap string (gmap string string) :=
  map_imap (fun packageName versions =>
      if String.eqb packageName "__proto__" then None
      else Some (fold_left tag_version versions ∅))
    versionsByPackageNames.

(** *** What the walks record

    The (name, version) pairs in the order the walks reach them, and the
    recording of a list of pairs one after the other; the walks are shown
    below to do just that. *)
Definition record_all (pairs : list (string * string))
    (versionsByPackageNames : gmap string (list string))
    : error + gmap string (list string) :=
  fold_left (fun acc p =>
      match acc with
      | inl e => inl e
      | inr recorded => record_version (fst p) (snd p) recorded
      end) pairs (inr versionsByPackageNames).

Definition children (deps : list (string * LockedPackage))
    : list (string * string) :=
  map (fun d => (fst d, version (snd d))) deps.

Fixpoint nodes (npmPackageLock : LockedPackage) : list (string * string) :=
  match npmPackageLock with
  | mkLockedPackage _ None => []
  | mkLockedPackage _ (Some deps) =>
      app (children deps)
        ((fix below (l : list (string * LockedPackage)) :=
            match l with
            | [] => []
            | (_, child) :: rest => app (nodes child) (below rest)
            end) deps)
  end.

Definition yarn_pairs (yarnPackageLock : list (string * YarnLockPackage))
    : list (string * string) :=
  map (fun k => (pkgName (fst k), yarn_version (snd k))) yarnPackageLock.

(** Version [v] is in the set recorded for [name]. *)
Definition recorded (versionsByPackageNames : gmap string (list string))
    (name v : string) : Prop :=
  exists versions, versionsByPackageNames !! name = Some versions
                   /\ v ∈ versions.

(** No set holds a version twice. *)
Definition sets_NoDup (acc : gmap string (list string)) : Prop :=
  forall name versions, acc !! name = Some versions -> NoDup versions.

Fixpoint contains_at (s : string) : bool :=
  match s with
  | EmptyString => false
  | String c rest => Ascii.eqb c "@"%char || contains_at rest
  end.

(** What the handler asks of its surroundings. *)
Record Collaborators : Type := {
  path_join : string -> string -> string;
  exists_ : string -> bool;
  gfs_readFile : string -> error + string;
  parseYarnLock : string -> error + (string * list (string * YarnLockPackage));
    (* the [type] and the [object] of the result *)
  loadJsonFile : string -> error + LockedPackage
}.

Section WithCollaborators.
Context (E : Collaborators).

Definition code_is_ENOENT (e : error) : bool :=
  bool_decide (error_code e = Some "ENOENT").

(** Lines 114-127. *)
Definition readYarnLockFile (dir : string)
    : error + list (string * YarnLockPackage) :=
  let attempt : error + list (string * YarnLockPackage) :=
    match gfs_readFile E (path_join E dir "yarn.lock") with
    | inl e => inl e
    | inr yarnLockFile =>
        match parseYarnLock E yarnLockFile with
        | inl e => inl e
        | inr (type, object) =>
            if String.eqb type "success" then inr object
            else inl (PnpmError "GET_YARN_LOCKFILE_ERR" ("Failed With " ++ type))
        end
    end in
  match attempt with
  | inr object => inr object
  | inl err =>
      if code_is_ENOENT err
      then inl (PnpmError "YARN_LOCKFILE_NOT_FOUND" "No yarn.lock found")
      else inl err
  end.

(** Lines 129-141. *)
Definition readNpmLockfile (dir : string) : error + LockedPackage :=
  match loadJsonFile E (path_join E dir "package-lock.json") with
  | inr lock => inr lock
  | inl err =>
      if code_is_ENOENT err then
        match loadJsonFile E (path_join E dir "npm-shrinkwrap.json") with
        | inr lock => inr lock
        | inl err' =>
            if code_is_ENOENT err'
            then inl (PnpmError "NPM_LOCKFILE_NOT_FOUND"
                   "No package-lock.json or npm-shrinkwrap.json found")
            else inl err'
        end
      else inl err
  end.

(** Which extraction the handler entered. *)
Inductive extraction : Type := YarnExtraction | NpmExtraction.

(** Lines 58-59, then line 69. *)
Definition yarn_extraction (dir : string)
    : error + gmap string (gmap string string) :=
  match readYarnLockFile dir with
  | inl e => inl e
  | inr yarnPackgeLockFile =>
      match getAllVersionsFromYarnLockFile yarnPackgeLockFile ∅ with
      | inl e => inl e
      | inr versionsByPackageNames =>
          inr (getPreferredVersions versionsByPackageNames)
      end
  end.

(** Lines 64-65, then line 69. *)
Definition npm_extraction (dir : string)
    : error + gmap string (gmap string string) :=
  match readNpmLockfile dir with
  | inl e => inl e
  | inr npmPackageLock =>
      match getAllVersionsByPackageNames npmPackageLock ∅ with
      | inl e => inl e
      | inr versionsByPackageNames =>
          inr (getPreferredVersions versionsByPackageNames)
      end
  end.

(** Lines 55-69 of [handler]: the extractions entered, and the preferred
    versions or the error thrown. *)
Definition handler_preferredVersions (dir : string)
    : list extraction * (error + gmap string (gmap string string)) :=
  if exists_ E (path_join E dir "yarn.lock") then
    ([YarnExtraction], yarn_extraction dir)
  else if exists_ E (path_join E dir "package-lock.json")
          || exists_ E (path_join E dir "npm-shrinkwrap.json") then
    ([NpmExtraction], npm_extraction dir)
  else ([], inl (PnpmError "LOCKFILE_NOT_FOUND" "No lockfile found")).

End WithCollaborators.
End ImportCommand.

(** ** The import command, whole *)
Module ImportHandler.
Import ImportCommand.

Section Handler.
Context {Project Manifest Store : Type}.

(** What the handler reads of its options; [workspaceDir], [allProjects]
    and [selectedProjectsGraph] may be missing.  A projects graph is an
    object from directories to [{dependencies, package}]. *)
Record ImportCommandOptions : Type := {
  dir : string;
  workspaceDir : option string;
  allProjects : option (list Project);
  selectedProjectsGraph : option (gmap string (list string * Project))
}.

(** The rest of the surroundings; a call that can throw returns the thrown
    value, [None] when a call that returns nothing does not throw.
    [recursive] and [install] are given [lockfileOnly: true]. *)
Record World : Type := {
  WANTED_LOCKFILE : string;
  rimraf : string -> option error;
  project_dir : Project -> string;
  path_relative : string -> string -> string;
  findWorkspacePackages : string -> error + list Project;
  sequenceGraph :
    gmap string (list string * Project) -> bool * list (list string);
    (* [safe] and [cycles] *)
  recursive :
    list Project -> list string -> gmap string (list string * Project) ->
    gmap string (gmap string string) -> string -> option error;
  createOrConnectStoreController : error + Store;
  readProjectManifestOnly : string -> error + Manifest;
  install :
    Manifest -> gmap string (gmap string string) -> Store -> option error
}.

(** The calls the handler makes, in the order it makes them. *)
Inductive event : Type :=
  | Rimraf (path : string)
  | Extract (x : extraction)
  | FindWorkspacePackages (workspaceDir : string)
  | Warn (message prefix : string)
  | Recursive (allProjects : list Project) (params : list string)
      (selectedProjectsGraph : gmap string (list string * Project))
      (preferredVersions : gmap string (gmap string string))
      (workspaceDir : string)
  | CreateStore
  | ReadManifest (dir : string)
  | Install (manifest : Manifest)
      (preferredVersions : gmap string (gmap string string)) (store : Store).

Definition T (A : Type) : Type := (list event * (error + A))%type.

Definition then_ {A B} (m : T A) (k : A -> T B) : T B :=
  match m with
  | (l, inl e) => (l, inl e)
  | (l, inr a) => let '(l', r) := k a in (app l l', r)
  end.

Definition call {A} (ev : event) (r : error + A) : T A := ([ev], r).

Definition run (ev : event) (r : option error) : T unit :=
  ([ev], match r with Some e => inl e | None => inr tt end).

Definition done_ : T unit := ([], inr tt).

Context (E : Collaborators) (W : World).

(** Lines 216-220. *)
Definition selectProjectByDir (projects : list Project) (searchedDir : string)
    : option (gmap string (list string * Project)) :=
  match find (fun p =>
          String.eqb (path_relative W (project_dir W p) searchedDir) "")
          projects with
  | None => None
  | Some project => Some (<[searchedDir := ([], project)]> ∅)
  end.

(** Lines 79-85. *)
Definition cyclic_warning (cycles : list (list string)) (prefix : string)
    : event :=
  Warn ("There are cyclic workspace dependencies"
        ++ match cycles with
           | [] => ""
           | _ => ": " ++ String.concat "; " (map (String.concat ", ") cycles)
           end) prefix.

(** Lines 72-101, [workspaceDir] being a non-empty string. *)
Definition import_workspace (opts : ImportCommandOptions)
    (params : list string) (workspace : string)
    (preferredVersions : gmap string (gmap string string)) : T unit :=
  then_ (match allProjects opts with
         | Some projects => ([], inr projects)
         | None => call (FindWorkspacePackages workspace)
                     (findWorkspacePackages W workspace)
         end) (fun projects =>
  match match selectedProjectsGraph opts with
        | Some graph => Some graph
        | None => selectProjectByDir projects (dir opts)
        end with
  | None => done_
  | Some graph =>
      then_ (if fst (sequenceGraph W graph) then done_
             else ([cyclic_warning (snd (sequenceGraph W graph)) workspace],
                   inr tt)) (fun _ =>
      run (Recursive projects params graph preferredVersions workspace)
        (recursive W projects params graph preferredVersions workspace))
  end).

(** Lines 103-111. *)
Definition import_project (opts : ImportCommandOptions)
    (preferredVersions : gmap string (gmap string string)) : T unit :=
  then_ (call CreateStore (createOrConnectStoreController W)) (fun store =>
  then_ (call (ReadManifest (dir opts))
           (readProjectManifestOnly W (dir opts))) (fun manifest =>
  run (Install manifest preferredVersions store)
    (install W manifest preferredVersions store))).

(** Lines 48-112. *)
Definition handler (opts : ImportCommandOptions) (params : list string)
    : T unit :=
  then_ (run (Rimraf (path_join E (dir opts) (WANTED_LOCKFILE W)))
           (rimraf W (path_join E (dir opts) (WANTED_LOCKFILE W)))) (fun _ =>
  then_ (map Extract (fst (handler_preferredVersions E (dir opts))),
         snd (handler_preferredVersions E (dir opts)))
    (fun preferredVersions =>
  match workspaceDir opts with
  | Some workspace =>
      if String.eqb workspace "" then import_project opts preferredVersions
      else import_workspace opts params workspace preferredVersions
  | None => import_project opts preferredVersions
  end)).

(** The preferred versions an event hands to the installer, when it is a
    call of [recursive] or of [install]. *)
Definition installs (ev : event) : option (gmap string (gmap string string)) :=
  match ev with
  | Recursive _ _ _ preferredVersions _ => Some preferredVersions
  | Install _ preferredVersions _ => Some preferredVersions
  | _ => None
  end.

(** A call made only outside a workspace. *)
Definition single_project_call (ev : event) : bool :=
  match ev with
  | CreateStore | ReadManifest _ | Install _ _ _ => true
  | _ => false
  end.

End Handler.
End ImportHandler.

(** ** Concrete surroundings for the import command *)
Module ImportDemo.
Import ImportCommand.

(** A directory given by the foreign lockfiles present in it: the parsed
    [yarn.lock], the parsed [package-lock.json] and the parsed
    [npm-shrinkwrap.json]. *)
Definition directory
    (yarn : option (list (string * YarnLockPackage)))
    (npm shrinkwrap : option LockedPackage) : Collaborators :=
  {| path_join := fun a b => a ++ "/" ++ b;
     exists_ := fun p =>
       (String.eqb p "p/yarn.lock" && bool_decide (is_Some yarn))
       || (String.eqb p "p/package-lock.json" && bool_decide (is_Some npm))
       || (String.eqb p "p/npm-shrinkwrap.json"
           && bool_decide (is_Some shrinkwrap));
     gfs_readFile := fun p =>
       if String.eqb p "p/yarn.lock" && bool_decide (is_Some yarn)
       then inr "yarn" else inl (ErrnoException "ENOENT");
     parseYarnLock := fun _ => inr ("success", default [] yarn);
     loadJsonFile := fun p =>
       if String.eqb p "p/package-lock.json"
       then from_option inr (inl (ErrnoException "ENOENT")) npm
       else if String.eqb p "p/npm-shrinkwrap.json"
       then from_option inr (inl (ErrnoException "ENOENT")) shrinkwrap
       else inl (ErrnoException "ENOENT") |}.

Definition leaf (v : string) : LockedPackage := mkLockedPackage v None.

Definition node (v : string) (deps : list (string * LockedPackage))
    : LockedPackage :=
  mkLockedPackage v (Some deps).

Definition entry (v : string) : YarnLockPackage :=
  {| yarn_version := v; resolved := ""; integrity := "";
     yarn_dependencies := None |}.

(** [{dependencies: {lodash: {version: "4.17.0", dependencies: {debug:
    {version: "1.0.0"}}}}}]. *)
Definition lodash_lock : LockedPackage :=
  node "1.0.0" [("lodash", node "4.17.0" [("debug", leaf "1.0.0")])].

(** The same packages, debug hoisted beside lodash and still nested under
    it. *)
Definition lodash_lock_hoisted : LockedPackage :=
  node "1.0.0"
    [("debug", leaf "1.0.0");
     ("lodash", node "4.17.0" [("debug", leaf "1.0.0")])].

(** [{dependencies: {constructor: {version: "1.0.0"}}}]. *)
Definition constructor_lock : LockedPackage :=
  node "1.0.0" [("constructor", leaf "1.0.0")].

(** A world of projects named by their directory, in which every call
    succeeds; [path.relative] is empty on equal paths. *)
Definition world (projects : list string)
    : @ImportHandler.World string unit unit :=
  {| ImportHandler.WANTED_LOCKFILE := "pnpm-lock.yaml";
     ImportHandler.rimraf := fun _ => None;
     ImportHandler.project_dir := fun p => p;
     ImportHandler.path_relative := fun a b =>
       if String.eqb a b then "" else "../" ++ b;
     ImportHandler.findWorkspacePackages := fun _ => inr projects;
     ImportHandler.sequenceGraph := fun _ => (true, []);
     ImportHandler.recursive := fun _ _ _ _ _ => None;
     ImportHandler.createOrConnectStoreController := inr tt;
     ImportHandler.readProjectManifestOnly := fun _ => inr tt;
     ImportHandler.install := fun _ _ _ => None |}.

Definition import_opts (workspace : option string)
    : @ImportHandler.ImportCommandOptions string :=
  {| ImportHandler.dir := "p";
     ImportHandler.workspaceDir := workspace;
     ImportHandler.allProjects := None;
     ImportHandler.selectedProjectsGraph := None |}.

End ImportDemo.

Example comver_5_4 : Demo.comver "5.4" = "5.4.0" /\ Demo.comver "6" = "6.0.0".
Proof. split; reflexivity. Qed.

Example major_5_10 : Demo.major "5.10.0" = inr 5%N.
Proof. reflexivity. Qed.

(** Section 8 of the specification: major 5 against major 5, minor 10
    against minor 4, is accepted with the downgrade warning. *)
Example compatible_newer_minor :
  Read._read (Demo.one_file (Demo.with_version "5.10")) "p/pnpm-lock.yaml" "p"
    (Demo.opts false (Some "5.4") false)
  = ([LogWarn ("Your pnpm-lock.yaml was generated by a newer version of pnpm. "
        ++ "It is a compatible version but it might get downgraded to version 5.4")
        "p"],
     inr {| Read.lockfile := Demo.with_version "5.10";
            Read.hadConflicts := false |}).
Proof. vm_compute. reflexivity. Qed.

(** Major 6 against major 5: the breaking-change error, or the absent
    lockfile under [ignoreIncompatible]. *)
Example incompatible_major_throws :
  Read._read (Demo.one_file (Demo.with_version "6")) "p/pnpm-lock.yaml" "p"
    (Demo.opts false (Some "5.4") false)
  = ([], inl (LockfileBreakingChangeError "p/pnpm-lock.yaml")).
Proof. vm_compute. reflexivity. Qed.

Example incompatible_major_ignored :
  Read._read (Demo.one_file (Demo.with_version "6")) "p/pnpm-lock.yaml" "p"
    (Demo.opts false (Some "5.4") true)
  = ([LogWarn "Ignoring not compatible lockfile at p/pnpm-lock.yaml" "p"],
     inr {| Read.lockfile := JS.VNull; Read.hadConflicts := false |}).
Proof. vm_compute. reflexivity. Qed.

(** * Properties *)

(** ** Schema migration *)
Section Migration.
Import JS Read.

Lemma move_field_root_lookup (st : gmap string value * gmap string value)
    (depType k : string) :
  k <> depType -> fst (move_field st depType) !! k = fst st !! k.
Proof.
  intros Hk. destruct st as [root importer]. unfold move_field.
  destruct (nullish _); simpl; [done|].
  by rewrite lookup_delete_ne.
Qed.

Lemma move_field_root_none (st : gmap string value * gmap string value)
    (depType k : string) :
  fst st !! k = None -> fst (move_field st depType) !! k = None.
Proof.
  intros Hk. destruct st as [root importer]. unfold move_field.
  destruct (nullish _); simpl in *; [done|].
  destruct (decide (depType = k)) as [->|Hne].
  - by rewrite lookup_delete_eq.
  - by rewrite lookup_delete_ne.
Qed.

Lemma moved_root_lookup (fields : list string)
    (st : gmap string value * gmap string value) (k : string) :
  k ∉ fields -> fst (fold_left move_field fields st) !! k = fst st !! k.
Proof.
  revert st. induction fields as [|f fields IH]; intros st Hk; [done|].
  apply not_elem_of_cons in Hk as [Hf Hk].
  simpl. rewrite IH by done.
  by apply move_field_root_lookup.
Qed.

Lemma moved_root_none (fields : list string)
    (st : gmap string value * gmap string value) (k : string) :
  fst st !! k = None -> fst (fold_left move_field fields st) !! k = None.
Proof.
  revert st. induction fields as [|f fields IH]; intros st Hk; [done|].
  simpl. apply IH. by apply move_field_root_none.
Qed.

Lemma migrate_props_specifiers (o : gmap string value) :
  migrate_props o !! "specifiers" = None.
Proof.
  unfold migrate_props. rewrite lookup_insert_ne by done.
  apply moved_root_none. simpl. by rewrite lookup_delete_eq.
Qed.

Lemma migrate_props_lookup (o : gmap string value) (k : string) :
  k ∉ "specifiers" :: "importers" :: DEPENDENCIES_FIELDS ->
  migrate_props o !! k = o !! k.
Proof.
  intros Hk. apply not_elem_of_cons in Hk as [Hs Hk].
  apply not_elem_of_cons in Hk as [Hi Hk].
  unfold migrate_props.
  rewrite lookup_insert_ne by done.
  rewrite moved_root_lookup by done.
  simpl. by rewrite lookup_delete_ne.
Qed.

Lemma migrated_specifiers (doc : value) :
  is_undefined (get (migrate doc) "specifiers") = true.
Proof.
  unfold migrate.
  destruct (is_undefined (get doc "specifiers")) eqn:Hs; [done|].
  destruct doc; simpl in *; try done;
    by rewrite migrate_props_specifiers.
Qed.

Lemma migrate_noop (doc : value) :
  is_undefined (get doc "specifiers") = true -> migrate doc = doc.
Proof. intros H. unfold migrate. by rewrite H. Qed.

Lemma truthy_migrate (doc : value) : truthy (migrate doc) = truthy doc.
Proof.
  unfold migrate. destruct (is_undefined _); [done|]. by destruct doc.
Qed.

Lemma get_migrate (doc : value) (k : string) :
  k ∉ "specifiers" :: "importers" :: DEPENDENCIES_FIELDS ->
  get (migrate doc) k = get doc k.
Proof.
  intros Hk. unfold migrate. destruct (is_undefined _); [done|].
  destruct doc; simpl; try done; by rewrite migrate_props_lookup.
Qed.

Lemma lockfileVersion_stays :
  "lockfileVersion" ∉ "specifiers" :: "importers" :: DEPENDENCIES_FIELDS.
Proof.
  unfold DEPENDENCIES_FIELDS. intros H.
  repeat (apply elem_of_cons in H as [H|H]; [discriminate|]).
  by apply elem_of_nil in H.
Qed.

End Migration.

(** C6.  The legacy-shape migration is idempotent: migrating a migrated
    document changes nothing; and a document with no [specifiers] at its
    root is left as it is. *)
Theorem migrate_idempotent (doc : JS.value) :
  Read.migrate (Read.migrate doc) = Read.migrate doc
  /\ (JS.is_undefined (JS.get doc "specifiers") = true ->
      Read.migrate doc = doc).
Proof.
  split.
  - apply migrate_noop, migrated_specifiers.
  - apply migrate_noop.
Qed.

Lemma migrate_idempotent_witness :
  JS.is_undefined (JS.get (Demo.with_version "5.4") "specifiers") = true
  /\ Read.migrate (Demo.with_version "5.4") = Demo.with_version "5.4".
Proof.
  split; [reflexivity|].
  apply (proj2 (migrate_idempotent (Demo.with_version "5.4"))). reflexivity.
Defined.

(** A legacy document: the root [specifiers] and dependency fields move
    under [importers['.']]; [dependenciesMeta] is copied and stays. *)
Example migrate_legacy :
  Read.migrate
    (Demo.obj [("lockfileVersion", JS.VNum "5.3");
               ("specifiers", Demo.obj [("a", JS.VStr "^1.0.0")]);
               ("dependencies", Demo.obj [("a", JS.VStr "1.0.0")])])
  = Demo.obj
      [("lockfileVersion", JS.VNum "5.3");
       ("importers",
        Demo.obj
          [(".",
            Demo.obj [("specifiers", Demo.obj [("a", JS.VStr "^1.0.0")]);
                      ("dependenciesMeta", JS.VUndef);
                      ("dependencies", Demo.obj [("a", JS.VStr "1.0.0")])])])].
Proof. vm_compute. reflexivity. Qed.

(** ** The shared read routine *)
Section ReadRoutine.
Import JS Read.
Context (E : Collaborators).

Lemma bind_ret {A B} (a : A) (k : A -> M B) : bind (ret a) k = k a.
Proof. unfold bind, ret. by destruct (k a). Qed.

Lemma bind_lift_inr {A B} (a : A) (k : A -> M B) : bind (lift (inr a)) k = k a.
Proof. apply bind_ret. Qed.

Lemma bind_tell {B} (l : log_event) (k : unit -> M B) :
  bind (tell l) k = (l :: logs (k tt), outcome (k tt)).
Proof. unfold bind, tell, logs, outcome. by destruct (k tt). Qed.

Lemma read_missing (lockfilePath prefix : string) (opts : ReadOpts)
    (err : error) :
  readFile E lockfilePath = inl err ->
  error_code err = Some "ENOENT" ->
  _read E lockfilePath prefix opts = ret absent.
Proof.
  intros Hread Hcode. unfold _read, read_raw. rewrite Hread.
  rewrite bool_decide_eq_true_2 by done. by rewrite bind_ret.
Qed.

Lemma read_failed (lockfilePath prefix : string) (opts : ReadOpts)
    (err : error) :
  readFile E lockfilePath = inl err ->
  error_code err <> Some "ENOENT" ->
  _read E lockfilePath prefix opts = throw err.
Proof.
  intros Hread Hcode. unfold _read, read_raw. rewrite Hread.
  by rewrite bool_decide_eq_false_2.
Qed.

Lemma read_text (lockfilePath prefix : string) (opts : ReadOpts)
    (content : string) :
  readFile E lockfilePath = inr content ->
  _read E lockfilePath prefix opts
  = bind (parse E lockfilePath prefix opts (stripBom E content)) (fun p =>
      check_version E lockfilePath prefix opts (migrate (fst p)) (snd p)).
Proof.
  intros Hread. unfold _read, read_raw. rewrite Hread. by rewrite bind_ret.
Qed.

Lemma read_parsed (lockfilePath prefix : string) (opts : ReadOpts)
    (content : string) (doc : value) :
  readFile E lockfilePath = inr content ->
  yaml_load E (stripBom E content) = inr doc ->
  _read E lockfilePath prefix opts
  = check_version E lockfilePath prefix opts (migrate doc) false.
Proof.
  intros Hread Hparse. rewrite (read_text _ _ _ _ Hread).
  unfold parse. rewrite Hparse. by rewrite bind_ret.
Qed.

Lemma check_version_falsy (lockfilePath prefix : string) (opts : ReadOpts)
    (doc : value) (conflicts : bool) :
  truthy doc = false ->
  check_version E lockfilePath prefix opts doc conflicts
  = incompatible lockfilePath prefix opts.
Proof. intros H. unfold check_version. by rewrite H. Qed.

Lemma incompatible_ignored (lockfilePath prefix : string) (opts : ReadOpts) :
  ignoreIncompatible opts = true ->
  incompatible lockfilePath prefix opts
  = ([ignoring_warning lockfilePath prefix], inr absent).
Proof. intros H. unfold incompatible. by rewrite H. Qed.

Lemma incompatible_thrown (lockfilePath prefix : string) (opts : ReadOpts) :
  ignoreIncompatible opts = false ->
  incompatible lockfilePath prefix opts
  = ([], inl (LockfileBreakingChangeError lockfilePath)).
Proof. intros H. unfold incompatible. by rewrite H. Qed.

Lemma incompatible_returns (lockfilePath prefix : string) (opts : ReadOpts)
    (r : ReadResult) :
  outcome (incompatible lockfilePath prefix opts) = inr r -> r = absent.
Proof.
  unfold incompatible. destruct (ignoreIncompatible opts).
  - rewrite bind_tell. unfold outcome, absent. simpl. congruence.
  - unfold outcome. simpl. congruence.
Qed.

(** The version check on a present document whose version prints as [s]. *)
Lemma check_version_unwanted (lockfilePath prefix : string) (opts : ReadOpts)
    (doc : value) (conflicts : bool) (s : string) :
  truthy doc = true ->
  toString_or_0 E (get doc "lockfileVersion") = ret s ->
  wantedVersion opts = None ->
  check_version E lockfilePath prefix opts doc conflicts
  = ret {| lockfile := doc; hadConflicts := conflicts |}.
Proof.
  intros Ht Hs Hw. unfold check_version.
  rewrite Ht, Hs, bind_ret, Hw. by rewrite !bind_ret.
Qed.

Lemma check_version_same_major (lockfilePath prefix : string)
    (opts : ReadOpts) (doc : value) (conflicts : bool) (s w : string)
    (m : N) (newer : bool) :
  truthy doc = true ->
  toString_or_0 E (get doc "lockfileVersion") = ret s ->
  wantedVersion opts = Some w ->
  semver_major E (comverToSemver E s) = inr m ->
  semver_major E (comverToSemver E w) = inr m ->
  semver_gt E (comverToSemver E s) (comverToSemver E w) = inr newer ->
  check_version E lockfilePath prefix opts doc conflicts
  = (if newer then [downgrade_warning E w prefix] else [],
     inr {| lockfile := doc; hadConflicts := conflicts |}).
Proof.
  intros Ht Hs Hw H1 H2 Hgt. unfold check_version.
  rewrite Ht, Hs, bind_ret, Hw, H1, bind_lift_inr, H2, bind_lift_inr, bind_ret.
  rewrite N.eqb_refl, Hgt, bind_lift_inr.
  destruct newer.
  - rewrite bind_tell. reflexivity.
  - rewrite bind_ret. reflexivity.
Qed.

Lemma check_version_other_major (lockfilePath prefix : string)
    (opts : ReadOpts) (doc : value) (conflicts : bool) (s w : string)
    (m1 m2 : N) :
  truthy doc = true ->
  toString_or_0 E (get doc "lockfileVersion") = ret s ->
  wantedVersion opts = Some w ->
  semver_major E (comverToSemver E s) = inr m1 ->
  semver_major E (comverToSemver E w) = inr m2 ->
  m1 <> m2 ->
  check_version E lockfilePath prefix opts doc conflicts
  = incompatible lockfilePath prefix opts.
Proof.
  intros Ht Hs Hw H1 H2 Hne. unfold check_version.
  rewrite Ht, Hs, bind_ret, Hw, H1, bind_lift_inr, H2, bind_lift_inr, bind_ret.
  apply N.eqb_neq in Hne. by rewrite Hne.
Qed.

Lemma outcome_bind_inr {A B} (m : M A) (k : A -> M B) (b : B) :
  outcome (bind m k) = inr b ->
  exists a, outcome m = inr a /\ outcome (k a) = inr b.
Proof.
  destruct m as [l [e|a]]; simpl; [done|].
  unfold outcome. destruct (k a) as [l' r] eqn:Hk. simpl. intros ->.
  exists a. by rewrite Hk.
Qed.


End ReadRoutine.

(** C7.  When reading the lockfile file fails with [ENOENT] the routine
    returns the absent lockfile with [hadConflicts = false], logs nothing and
    throws nothing; a read failure with any other code is thrown as it
    is. *)
Theorem read_missing_file_is_absent (E : Read.Collaborators)
    (lockfilePath prefix : string) (opts : Read.ReadOpts) (err : error) :
  Read.readFile E lockfilePath = inl err ->
  (error_code err = Some "ENOENT" ->
   Read._read E lockfilePath prefix opts
   = ([], inr {| Read.lockfile := JS.VNull; Read.hadConflicts := false |}))
  /\ (error_code err <> Some "ENOENT" ->
      Read._read E lockfilePath prefix opts = ([], inl err)).
Proof.
  intros Hread. split; intros Hcode.
  - by rewrite (read_missing E _ _ _ _ Hread Hcode).
  - by rewrite (read_failed E _ _ _ _ Hread Hcode).
Qed.

Lemma read_missing_file_is_absent_witness :
  Read.readFile (Demo.collaborators [("p/x", inl (ErrnoException "EACCES"))] [] [] [])
    "p/pnpm-lock.yaml" = inl (ErrnoException "ENOENT")
  /\ Read._read (Demo.collaborators [("p/x", inl (ErrnoException "EACCES"))] [] [] [])
       "p/pnpm-lock.yaml" "p" (Demo.opts true None false)
     = ([], inr {| Read.lockfile := JS.VNull; Read.hadConflicts := false |})
  /\ Read._read (Demo.collaborators [("p/x", inl (ErrnoException "EACCES"))] [] [] [])
       "p/x" "p" (Demo.opts true None false)
     = ([], inl (ErrnoException "EACCES")).
Proof.
  split; [reflexivity|]. split.
  - apply (read_missing_file_is_absent _ "p/pnpm-lock.yaml" "p" _
             (ErrnoException "ENOENT")); reflexivity.
  - apply (read_missing_file_is_absent _ "p/x" "p" _
             (ErrnoException "EACCES")); [reflexivity|discriminate].
Defined.

(** C9.  When the file exists and its text parses to [null] (or to
    [undefined], as the text of an empty file does), the routine does not
    treat it as the plain no-lockfile case: whatever [wantedVersion] is, it
    throws [LockfileBreakingChangeError] with the path when
    [ignoreIncompatible] is false, and logs the warning and returns the
    absent lockfile when it is true. *)
Theorem read_null_document (E : Read.Collaborators)
    (lockfilePath prefix : string) (opts : Read.ReadOpts)
    (content : string) (doc : JS.value) :
  Read.readFile E lockfilePath = inr content ->
  Read.yaml_load E (Read.stripBom E content) = inr doc ->
  JS.nullish doc = true ->
  (Read.ignoreIncompatible opts = false ->
   Read._read E lockfilePath prefix opts
   = ([], inl (LockfileBreakingChangeError lockfilePath)))
  /\ (Read.ignoreIncompatible opts = true ->
      Read._read E lockfilePath prefix opts
      = ([Read.ignoring_warning lockfilePath prefix],
         inr {| Read.lockfile := JS.VNull; Read.hadConflicts := false |})).
Proof.
  intros Hread Hparse Hnull.
  rewrite (read_parsed E _ _ _ _ _ Hread Hparse).
  rewrite check_version_falsy
    by (rewrite truthy_migrate; destruct doc; done).
  split; intros Hi.
  - by apply incompatible_thrown.
  - by apply incompatible_ignored.
Qed.

Lemma read_null_document_witness :
  Read.readFile (Demo.one_file JS.VUndef) "p/pnpm-lock.yaml" = inr "raw"
  /\ Read._read (Demo.one_file JS.VUndef) "p/pnpm-lock.yaml" "p"
       (Demo.opts false None false)
     = ([], inl (LockfileBreakingChangeError "p/pnpm-lock.yaml"))
  /\ Read._read (Demo.one_file JS.VUndef) "p/pnpm-lock.yaml" "p"
       (Demo.opts false None true)
     = ([Read.ignoring_warning "p/pnpm-lock.yaml" "p"],
        inr {| Read.lockfile := JS.VNull; Read.hadConflicts := false |}).
Proof.
  split; [reflexivity|]. split.
  - apply (read_null_document (Demo.one_file JS.VUndef) _ _ _ "raw" JS.VUndef);
      reflexivity.
  - apply (read_null_document (Demo.one_file JS.VUndef) _ _ _ "raw" JS.VUndef);
      reflexivity.
Defined.

(** C1, as stated, fails on the document an empty file parses to: with no
    [wantedVersion] requested and [ignoreIncompatible] false the routine
    does not accept it, it throws the breaking-change error. *)
Lemma read_accepts_unconditionally_counterexample :
  Read.readFile (Demo.one_file JS.VUndef) "p/pnpm-lock.yaml" = inr "raw"
  /\ Read.yaml_load (Demo.one_file JS.VUndef) "raw" = inr JS.VUndef
  /\ Read.wantedVersion (Demo.opts false None false) = None
  /\ Read._read (Demo.one_file JS.VUndef) "p/pnpm-lock.yaml" "p"
       (Demo.opts false None false)
     = ([], inl (LockfileBreakingChangeError "p/pnpm-lock.yaml"))
  /\ ~ (exists r, outcome (Read._read (Demo.one_file JS.VUndef)
                      "p/pnpm-lock.yaml" "p" (Demo.opts false None false))
                  = inr r).
Proof.
  repeat split; try reflexivity.
  intros [r Hr]. vm_compute in Hr. discriminate.
Qed.

(** C1, amended.  For every parsed document that is present (truthy) and
    whose [lockfileVersion] (0 when missing) prints as [s]: with no
    [wantedVersion] the routine returns the migrated document and logs
    nothing; with a [wantedVersion] of the same major it returns the migrated
    document, logging the downgrade warning exactly when the document's
    version is the greater one; with a different major it logs a warning and
    returns the absent lockfile when [ignoreIncompatible] is true, and throws
    [LockfileBreakingChangeError] with the path when it is false. *)
Theorem read_version_compatibility (E : Read.Collaborators)
    (lockfilePath prefix : string) (opts : Read.ReadOpts)
    (content : string) (doc : JS.value) (s : string) :
  Read.readFile E lockfilePath = inr content ->
  Read.yaml_load E (Read.stripBom E content) = inr doc ->
  JS.truthy doc = true ->
  Read.toString_or_0 E (JS.get doc "lockfileVersion") = ret s ->
  (Read.wantedVersion opts = None ->
   Read._read E lockfilePath prefix opts
   = ([], inr {| Read.lockfile := Read.migrate doc;
                 Read.hadConflicts := false |}))
  /\ (forall (w : string) (m1 m2 : N),
      Read.wantedVersion opts = Some w ->
      Read.semver_major E (Read.comverToSemver E s) = inr m1 ->
      Read.semver_major E (Read.comverToSemver E w) = inr m2 ->
      (m1 = m2 ->
       forall newer : bool,
       Read.semver_gt E (Read.comverToSemver E s) (Read.comverToSemver E w)
       = inr newer ->
       Read._read E lockfilePath prefix opts
       = (if newer then [Read.downgrade_warning E w prefix] else [],
          inr {| Read.lockfile := Read.migrate doc;
                 Read.hadConflicts := false |}))
      /\ (m1 <> m2 ->
          Read.ignoreIncompatible opts = true ->
          Read._read E lockfilePath prefix opts
          = ([Read.ignoring_warning lockfilePath prefix],
             inr {| Read.lockfile := JS.VNull; Read.hadConflicts := false |}))
      /\ (m1 <> m2 ->
          Read.ignoreIncompatible opts = false ->
          Read._read E lockfilePath prefix opts
          = ([], inl (LockfileBreakingChangeError lockfilePath)))).
Proof.
  intros Hread Hparse Htruthy Hs.
  rewrite (read_parsed E _ _ _ _ _ Hread Hparse).
  assert (Ht : JS.truthy (Read.migrate doc) = true)
    by (by rewrite truthy_migrate).
  assert (Hv : Read.toString_or_0 E (JS.get (Read.migrate doc) "lockfileVersion")
               = ret s).
  { rewrite get_migrate; [done|]. apply lockfileVersion_stays. }
  split.
  - intros Hw. by apply (check_version_unwanted E _ _ _ _ _ s).
  - intros w m1 m2 Hw H1 H2. repeat split.
    + intros <- newer Hgt.
      by apply (check_version_same_major E _ _ _ _ _ s w m1).
    + intros Hne Hi.
      rewrite (check_version_other_major E _ _ _ _ _ s w m1 m2) by done.
      by apply incompatible_ignored.
    + intros Hne Hi.
      rewrite (check_version_other_major E _ _ _ _ _ s w m1 m2) by done.
      by apply incompatible_thrown.
Qed.

Lemma read_version_compatibility_witness :
  Read.readFile (Demo.one_file (Demo.with_version "5.10")) "p/pnpm-lock.yaml"
  = inr "raw"
  /\ JS.truthy (Demo.with_version "5.10") = true
  /\ Read._read (Demo.one_file (Demo.with_version "5.10")) "p/pnpm-lock.yaml"
       "p" (Demo.opts false (Some "5.4") false)
     = ([Read.downgrade_warning (Demo.one_file (Demo.with_version "5.10"))
           "5.4" "p"],
        inr {| Read.lockfile := Read.migrate (Demo.with_version "5.10");
               Read.hadConflicts := false |}).
Proof.
  split; [reflexivity|]. split; [reflexivity|].
  refine (proj1 (proj2 (read_version_compatibility
            (Demo.one_file (Demo.with_version "5.10")) "p/pnpm-lock.yaml" "p"
            (Demo.opts false (Some "5.4") false) "raw"
            (Demo.with_version "5.10") "5.10" _ _ _ _)
          "5.4" 5%N 5%N _ _ _) _ true _); reflexivity.
Defined.




(** ** Merging the branch lockfiles *)
Section BranchMerge.
Import JS Read.

Lemma merge_packages_obj (o : gmap string value) (b : value) :
  merge_packages (inr (VObj o)) b
  = inr (VObj (if truthy (get b "packages")
               then <["packages" := VObj (packages_of b ∪ packages_of (VObj o))]> o
               else o)).
Proof. unfold merge_packages. by destruct (truthy _). Qed.

Lemma merge_packages_other_fields (o : gmap string value) (b : value)
    (k : string) :
  k <> "packages" ->
  (if truthy (get b "packages")
   then <["packages" := VObj (packages_of b ∪ packages_of (VObj o))]> o
   else o) !! k = o !! k.
Proof. intros Hk. destruct (truthy _); [|done]. by rewrite lookup_insert_ne. Qed.

(** The loop keeps an object an object, touches no field but [packages],
    and does nothing at all when no branch lockfile has packages. *)
Lemma merge_fold_obj (branches : list value) (o : gmap string value) :
  exists o' : gmap string value,
    fold_left merge_packages branches (inr (VObj o)) = inr (VObj o')
    /\ (forall k, k <> "packages" -> o' !! k = o !! k)
    /\ (Forall (fun b => truthy (get b "packages") = false) branches -> o' = o).
Proof.
  revert o. induction branches as [|b branches IH]; intros o; cbn [fold_left].
  - by exists o.
  - rewrite merge_packages_obj.
    destruct (IH (if truthy (get b "packages")
                  then <["packages" := VObj (packages_of b ∪ packages_of (VObj o))]> o
                  else o)) as (o' & Hfold & Hother & Hnone).
    exists o'. split; [done|]. split.
    + intros k Hk. rewrite Hother by done.
      by apply merge_packages_other_fields.
    + intros Hall. apply Forall_cons in Hall as [Hb Hall].
      rewrite Hnone by done. by rewrite Hb.
Qed.

(** A key that no later branch lockfile with packages carries keeps its
    entry through the rest of the loop. *)
Lemma merge_fold_keeps (branches : list value) (o o' : gmap string value)
    (key : string) :
  fold_left merge_packages branches (inr (VObj o)) = inr (VObj o') ->
  (forall b, b ∈ branches -> truthy (get b "packages") = true ->
             packages_of b !! key = None) ->
  packages_of (VObj o') !! key = packages_of (VObj o) !! key.
Proof.
  revert o. induction branches as [|b branches IH]; intros o; cbn [fold_left].
  - by intros [= ->].
  - rewrite merge_packages_obj. intros Hfold Hlater.
    rewrite (IH _ Hfold) by (intros b' Hb'; apply Hlater; by right).
    destruct (truthy (get b "packages")) eqn:Hb; [|done].
    simpl. rewrite lookup_insert_eq. simpl.
    rewrite lookup_union_r; [done|]. apply Hlater; [by left|done].
Qed.

(** An entry of a branch lockfile is in the merged packages unless a later
    branch lockfile overrides it. *)
Lemma merge_fold_later_wins (before after : list value) (b : value)
    (o o' : gmap string value) (key : string) (v : value) :
  fold_left merge_packages (before ++ b :: after)%list (inr (VObj o))
  = inr (VObj o') ->
  truthy (get b "packages") = true ->
  packages_of b !! key = Some v ->
  (forall b', b' ∈ after -> truthy (get b' "packages") = true ->
              packages_of b' !! key = None) ->
  packages_of (VObj o') !! key = Some v.
Proof.
  intros Hfold Hb Hv Hafter. rewrite fold_left_app in Hfold. cbn [fold_left] in Hfold.
  destruct (merge_fold_obj before o) as (o1 & H1 & _). rewrite H1 in Hfold.
  rewrite merge_packages_obj, Hb in Hfold.
  rewrite (merge_fold_keeps _ _ _ _ Hfold Hafter).
  simpl. rewrite lookup_insert_eq. simpl.
  by apply lookup_union_Some_l.
Qed.

Lemma Promise_all_fulfilled {A} (ps : list (error + A)) (xs : list A) :
  Forall2 (fun p x => p = inr x) ps xs -> Promise_all ps = Fulfilled xs.
Proof.
  intros H. unfold Promise_all.
  assert (rejections ps = [] /\ fulfilments ps = xs) as [-> ->]; [|done].
  induction H as [|p x ps xs -> _ [IH1 IH2]]; [done|].
  split.
  - exact IH1.
  - change (fulfilments (inr x :: ps)) with (x :: fulfilments ps).
    by rewrite IH2.
Qed.

End BranchMerge.

(** C5.  When every branch lockfile is read, the merge of a base lockfile
    (an object) returns the base with nothing changed outside [packages]
    (so [importers] is as it was), and with the base as it was when no
    branch lockfile has packages; in the merged packages an entry of a
    branch lockfile is present unless a later branch lockfile has the same
    key, and a key no branch lockfile has keeps the base's entry.  An absent
    base lockfile is returned as it is. *)
Theorem merge_branch_lockfiles (E : Read.Collaborators)
    (lockfileDir prefix : string) (opts : Read.ReadOpts) :
  (forall (base : gmap string JS.value) (files : list string)
          (results : list Read.ReadResult),
   Read.getGitBranchLockfileNames E lockfileDir = inr files ->
   Forall2 (fun file r =>
       outcome (Read._read E (Read.path_join E lockfileDir file) prefix opts)
       = inr r) files results ->
   exists merged : gmap string JS.value,
     Read._mergeGitBranchLockfiles E (JS.VObj base) lockfileDir prefix opts
     = Read.Fulfilled (JS.VObj merged)
     /\ (forall k, k <> "packages" -> merged !! k = base !! k)
     /\ (Forall (fun r => JS.truthy (JS.get (Read.lockfile r) "packages") = false)
           results -> merged = base)
     /\ (forall (key : string) (v : JS.value)
                (before after : list Read.ReadResult) (r : Read.ReadResult),
         results = (before ++ r :: after)%list ->
         JS.truthy (JS.get (Read.lockfile r) "packages") = true ->
         JS.own_props (JS.get (Read.lockfile r) "packages") !! key = Some v ->
         (forall r', r' ∈ after ->
            JS.truthy (JS.get (Read.lockfile r') "packages") = true ->
            JS.own_props (JS.get (Read.lockfile r') "packages") !! key = None) ->
         JS.own_props (JS.get (JS.VObj merged) "packages") !! key = Some v)
     /\ (forall key : string,
         (forall r, r ∈ results ->
            JS.truthy (JS.get (Read.lockfile r) "packages") = true ->
            JS.own_props (JS.get (Read.lockfile r) "packages") !! key = None) ->
         JS.own_props (JS.get (JS.VObj merged) "packages") !! key
         = JS.own_props (JS.get (JS.VObj base) "packages") !! key))
  /\ (forall base : JS.value,
      JS.truthy base = false ->
      Read._mergeGitBranchLockfiles E base lockfileDir prefix opts
      = Read.Fulfilled base).
Proof.
  split.
  - intros base files results Hnames Hreads.
    destruct (merge_fold_obj (map Read.lockfile results) base)
      as (merged & Hfold & Hother & Hnone).
    exists merged.
    assert (Hall : Read._readGitBranchLockfiles E lockfileDir prefix opts
                   = Read.Fulfilled results).
    { unfold Read._readGitBranchLockfiles. rewrite Hnames. simpl.
      apply Promise_all_fulfilled. by apply Forall2_fmap_l. }
    split.
    { unfold Read._mergeGitBranchLockfiles. simpl. rewrite Hall. simpl.
      by rewrite Hfold. }
    split; [done|]. split.
    { intros Hno. apply Hnone. by apply Forall_fmap. }
    split.
    + intros key v before after r -> Hr Hv Hafter.
      rewrite map_app in Hfold. simpl in Hfold.
      apply (merge_fold_later_wins _ _ _ _ _ _ _ Hfold Hr Hv).
      intros b' Hb'. apply list_elem_of_fmap in Hb' as (r' & -> & Hr').
      by apply Hafter.
    + intros key Hkey. apply (merge_fold_keeps _ _ _ _ Hfold).
      intros b' Hb'. apply list_elem_of_fmap in Hb' as (r' & -> & Hr').
      by apply Hkey.
  - intros base Hbase. unfold Read._mergeGitBranchLockfiles. by rewrite Hbase.
Qed.

(** Section 8 of the specification: base packages [{A: v1}], branch
    lockfiles [{B: v1}] and then [{A: v2}]. *)
Example merge_two_branches :
  Read._mergeGitBranchLockfiles Demo.branched (JS.VObj Demo.base_lockfile)
    "p" "p" (Demo.opts false (Some "5.4") false)
  = Read.Fulfilled
      (Demo.obj
         [("lockfileVersion", JS.VNum "5.4");
          ("importers",
           Demo.obj [(".", Demo.obj [("specifiers", Demo.obj [])])]);
          ("packages", Demo.obj [("A", JS.VStr "v2"); ("B", JS.VStr "v1")])]).
Proof. vm_compute. reflexivity. Qed.

Lemma merge_branch_lockfiles_witness :
  Read.getGitBranchLockfileNames Demo.branched "p"
  = inr ["pnpm-lock.b1.yaml"; "pnpm-lock.b2.yaml"]
  /\ exists merged : gmap string JS.value,
       Read._mergeGitBranchLockfiles Demo.branched
         (JS.VObj Demo.base_lockfile) "p" "p"
         (Demo.opts false (Some "5.4") false)
       = Read.Fulfilled (JS.VObj merged)
       /\ merged !! "importers" = Demo.base_lockfile !! "importers"
       /\ JS.own_props (JS.get (JS.VObj merged) "packages") !! "A"
          = Some (JS.VStr "v2")
       /\ JS.own_props (JS.get (JS.VObj merged) "packages") !! "B"
          = Some (JS.VStr "v1").
Proof.
  split; [reflexivity|].
  destruct (proj1 (merge_branch_lockfiles Demo.branched "p" "p"
                     (Demo.opts false (Some "5.4") false))
              Demo.base_lockfile
              ["pnpm-lock.b1.yaml"; "pnpm-lock.b2.yaml"]
              [ {| Read.lockfile :=
                     Read.migrate (Demo.with_packages [("B", JS.VStr "v1")]);
                   Read.hadConflicts := false |};
                {| Read.lockfile :=
                     Read.migrate (Demo.with_packages [("A", JS.VStr "v2")]);
                   Read.hadConflicts := false |} ]
              eq_refl)
    as (merged & Hmerged & Hother & _ & Hwins & _).
  { repeat constructor. }
  exists merged. split; [exact Hmerged|]. split; [by apply Hother|]. split.
  - apply (Hwins "A" (JS.VStr "v2")
             [ {| Read.lockfile :=
                    Read.migrate (Demo.with_packages [("B", JS.VStr "v1")]);
                  Read.hadConflicts := false |} ]
             [] _ eq_refl); [reflexivity | reflexivity |].
    intros r' Hr'. by apply elem_of_nil in Hr'.
  - apply (Hwins "B" (JS.VStr "v1") []
             [ {| Read.lockfile :=
                    Read.migrate (Demo.with_packages [("A", JS.VStr "v2")]);
                  Read.hadConflicts := false |} ]
             _ eq_refl); [reflexivity | reflexivity |].
    intros r' Hr' _. apply list_elem_of_singleton in Hr' as ->. reflexivity.
Defined.

(** ** The branch lockfiles are read without auto-fix *)
Section BranchReads.
Import JS Read.
Context (E : Collaborators).

Lemma read_broken (lockfilePath prefix : string) (opts : ReadOpts)
    (content message : string) :
  readFile E lockfilePath = inr content ->
  yaml_load E (stripBom E content) = inl message ->
  opt_autofixMergeConflicts opts = false ->
  _read E lockfilePath prefix opts
  = ([], inl (broken_lockfile lockfilePath message)).
Proof.
  intros Hread Hparse Hoff. rewrite (read_text E _ _ _ _ Hread).
  unfold parse. by rewrite Hparse, Hoff.
Qed.

Lemma elem_of_rejections {A} (ps : list (error + A)) (e : error) :
  e ∈ rejections ps <-> inl e ∈ ps.
Proof.
  unfold rejections. rewrite list_elem_of_omap. split.
  - intros (p & Hp & Hsome). destruct p; by simplify_eq.
  - intros Hp. by exists (inl e).
Qed.

Lemma Promise_all_rejected {A} (ps : list (error + A)) (e : error) :
  inl e ∈ ps -> Promise_all ps = Rejected (rejections ps).
Proof.
  intros Hp. apply elem_of_rejections in Hp. unfold Promise_all.
  destruct (rejections ps); [by apply elem_of_nil in Hp | done].
Qed.

(** The loop of the conflict-aware variant, up to the first candidate that
    yields a lockfile, when merging is asked for. *)
Lemma autofix_loop_found (pkgPath : string) (opts : WantedOpts)
    (skipped rest : list string) (name : string)
    (found result0 : ReadResult) :
  mergeGitBranchLockfiles opts = true ->
  Forall (fun n => exists r,
      outcome (_read E (path_join E pkgPath n) pkgPath (read_opts opts true))
      = inr r /\ truthy (lockfile r) = false) skipped ->
  outcome (_read E (path_join E pkgPath name) pkgPath (read_opts opts true))
  = inr found ->
  truthy (lockfile found) = true ->
  autofix_loop E pkgPath opts (skipped ++ name :: rest) result0
  = await (_mergeGitBranchLockfiles E (lockfile found) pkgPath pkgPath
             (read_opts opts false))
      (fun merged =>
         Fulfilled {| lockfile := merged; hadConflicts := hadConflicts found |}).
Proof.
  intros Hmerge Hskipped Hfound Htruthy. revert result0.
  induction Hskipped as [|n skipped (r & Hr & Hfalsy) _ IH]; intros result0.
  - simpl. rewrite Hfound. simpl. by rewrite Htruthy, Hmerge.
  - simpl. rewrite Hr. simpl. rewrite Hfalsy. apply IH.
Qed.

End BranchReads.

(** C10, as stated, fails when another branch lockfile cannot be read: the
    first branch file is unreadable ([EACCES]) and the second carries
    conflict markers and does not parse; [Promise.all] rejects with the
    first rejection, so the merge, and the conflict-aware variant with it,
    can reject with [EACCES] and not with [BROKEN_LOCKFILE]. *)
Lemma branch_merge_fails_with_broken_counterexample :
  Read.getGitBranchLockfileNames Demo.unreadable_branch "p"
  = inr ["pnpm-lock.b1.yaml"; "pnpm-lock.b2.yaml"]
  /\ Read.readFile Demo.unreadable_branch "p/pnpm-lock.b2.yaml"
     = inr "<<<<<<< HEAD"
  /\ Read.yaml_load Demo.unreadable_branch "<<<<<<< HEAD"
     = inl "unexpected end of the stream"
  /\ Read._mergeGitBranchLockfiles Demo.unreadable_branch
       (JS.VObj Demo.base_lockfile) "p" "p"
       (Read.read_opts (Demo.wanted_opts true) false)
     = Read.Rejected
         [ErrnoException "EACCES";
          Read.broken_lockfile "p/pnpm-lock.b2.yaml"
            "unexpected end of the stream"]
  /\ Read.readWantedLockfileAndAutofixConflicts Demo.unreadable_branch "p"
       (Demo.wanted_opts true)
     = Read.Rejected
         [ErrnoException "EACCES";
          Read.broken_lockfile "p/pnpm-lock.b2.yaml"
            "unexpected end of the stream"]
  /\ Read.readWantedLockfileAndAutofixConflicts Demo.unreadable_branch "p"
       (Demo.wanted_opts true)
     <> Read.Rejected
          [Read.broken_lockfile "p/pnpm-lock.b2.yaml"
             "unexpected end of the stream"].
Proof.
  repeat split; try (vm_compute; reflexivity).
  intros H. vm_compute in H. discriminate.
Qed.

(** C10, amended.  The merge called from the public functions, the
    conflict-aware variant included, gets the caller's options, which have
    no [autofixMergeConflicts]: a branch lockfile whose text does not parse
    is read to a [BROKEN_LOCKFILE] error whether or not it carries conflict
    markers, and is never resolved.  The merge of any present base then
    rejects, and so does the conflict-aware variant once a candidate name
    yields a lockfile: with one of the errors of the branch reads (the one
    raised first), that [BROKEN_LOCKFILE] being among them, and being the
    only one when every other branch file reads. *)
Theorem branch_lockfiles_not_autofixed (E : Read.Collaborators)
    (pkgPath : string) (opts : Read.WantedOpts) (files : list string)
    (file content message : string) :
  Read.getGitBranchLockfileNames E pkgPath = inr files ->
  file ∈ files ->
  Read.readFile E (Read.path_join E pkgPath file) = inr content ->
  Read.yaml_load E (Read.stripBom E content) = inl message ->
  Read._read E (Read.path_join E pkgPath file) pkgPath
    (Read.read_opts opts false)
  = ([], inl (Read.broken_lockfile (Read.path_join E pkgPath file) message))
  /\ (forall base : JS.value,
      JS.truthy base = true ->
      exists reasons : list error,
        Read._mergeGitBranchLockfiles E base pkgPath pkgPath
          (Read.read_opts opts false)
        = Read.Rejected reasons
        /\ Read.broken_lockfile (Read.path_join E pkgPath file) message
           ∈ reasons
        /\ (forall e, e ∈ reasons ->
            exists f, f ∈ files
              /\ outcome (Read._read E (Read.path_join E pkgPath f) pkgPath
                            (Read.read_opts opts false)) = inl e)
        /\ ((forall f, f ∈ files -> f <> file ->
             exists r, outcome (Read._read E (Read.path_join E pkgPath f)
                                  pkgPath (Read.read_opts opts false))
                       = inr r) ->
            forall e, e ∈ reasons ->
            e = Read.broken_lockfile (Read.path_join E pkgPath file) message))
  /\ (forall (skipped rest : list string) (name : string)
             (found : Read.ReadResult),
      Read.mergeGitBranchLockfiles opts = true ->
      Read.lockfileNames E opts = Read.Fulfilled (skipped ++ name :: rest)%list ->
      Forall (fun n => exists r,
          outcome (Read._read E (Read.path_join E pkgPath n) pkgPath
                     (Read.read_opts opts true)) = inr r
          /\ JS.truthy (Read.lockfile r) = false) skipped ->
      outcome (Read._read E (Read.path_join E pkgPath name) pkgPath
                 (Read.read_opts opts true)) = inr found ->
      JS.truthy (Read.lockfile found) = true ->
      exists reasons : list error,
        Read.readWantedLockfileAndAutofixConflicts E pkgPath opts
        = Read.Rejected reasons
        /\ Read.broken_lockfile (Read.path_join E pkgPath file) message
           ∈ reasons
        /\ (forall e, e ∈ reasons ->
            exists f, f ∈ files
              /\ outcome (Read._read E (Read.path_join E pkgPath f) pkgPath
                            (Read.read_opts opts false)) = inl e)
        /\ ((forall f, f ∈ files -> f <> file ->
             exists r, outcome (Read._read E (Read.path_join E pkgPath f)
                                  pkgPath (Read.read_opts opts false))
                       = inr r) ->
            forall e, e ∈ reasons ->
            e = Read.broken_lockfile (Read.path_join E pkgPath file) message)).
Proof.
  intros Hnames Hfile Hread Hparse.
  assert (Hbroken :
    Read._read E (Read.path_join E pkgPath file) pkgPath
      (Read.read_opts opts false)
    = ([], inl (Read.broken_lockfile (Read.path_join E pkgPath file) message)))
    by (by apply (read_broken E _ _ _ content)).
  assert (Hmerge : forall base : JS.value,
    JS.truthy base = true ->
    exists reasons : list error,
      Read._mergeGitBranchLockfiles E base pkgPath pkgPath
        (Read.read_opts opts false)
      = Read.Rejected reasons
      /\ Read.broken_lockfile (Read.path_join E pkgPath file) message ∈ reasons
      /\ (forall e, e ∈ reasons ->
          exists f, f ∈ files
            /\ outcome (Read._read E (Read.path_join E pkgPath f) pkgPath
                          (Read.read_opts opts false)) = inl e)
      /\ ((forall f, f ∈ files -> f <> file ->
           exists r, outcome (Read._read E (Read.path_join E pkgPath f)
                                pkgPath (Read.read_opts opts false))
                     = inr r) ->
          forall e, e ∈ reasons ->
          e = Read.broken_lockfile (Read.path_join E pkgPath file) message)).
  { intros base Hbase.
    set (reads := map (fun f =>
           outcome (Read._read E (Read.path_join E pkgPath f) pkgPath
                      (Read.read_opts opts false))) files).
    assert (Hin : inl (Read.broken_lockfile (Read.path_join E pkgPath file)
                         message) ∈ reads).
    { apply list_elem_of_fmap. exists file. by rewrite Hbroken. }
    assert (Hfrom : forall e, e ∈ Read.rejections reads ->
              exists f, f ∈ files
                /\ outcome (Read._read E (Read.path_join E pkgPath f) pkgPath
                              (Read.read_opts opts false)) = inl e).
    { intros e He. apply elem_of_rejections in He.
      apply list_elem_of_fmap in He as (f & Hf & Hin'). by exists f. }
    exists (Read.rejections reads). split; [|split; [|split]].
    - unfold Read._mergeGitBranchLockfiles, Read._readGitBranchLockfiles.
      rewrite Hbase, Hnames. simpl.
      fold reads. by rewrite (Promise_all_rejected _ _ Hin).
    - by apply elem_of_rejections.
    - exact Hfrom.
    - intros Hothers e He. destruct (Hfrom e He) as (f & Hf & Hfe).
      destruct (decide (f = file)) as [->|Hne].
      + rewrite Hbroken in Hfe. simpl in Hfe. congruence.
      + destruct (Hothers f Hf Hne) as (r & Hr). congruence. }
  split; [exact Hbroken|]. split; [exact Hmerge|].
  intros skipped rest name found Hon Hcandidates Hskipped Hfound Htruthy.
  destruct (Hmerge (Read.lockfile found) Htruthy)
    as (reasons & Hrej & Hmem & Hfrom & Honly).
  exists reasons. split; [|done].
  unfold Read.readWantedLockfileAndAutofixConflicts.
  rewrite Hcandidates. simpl Read.await.
  rewrite (autofix_loop_found E pkgPath opts skipped rest name found)
    by done.
  by rewrite Hrej.
Qed.

Lemma branch_lockfiles_not_autofixed_witness :
  Read.isDiff Demo.conflicted_branch "<<<<<<< HEAD" = true
  /\ Read._read Demo.conflicted_branch "p/pnpm-lock.b1.yaml" "p"
       (Read.read_opts (Demo.wanted_opts true) false)
     = ([], inl (Read.broken_lockfile "p/pnpm-lock.b1.yaml"
                   "unexpected end of the stream"))
  /\ exists reasons : list error,
       Read.readWantedLockfileAndAutofixConflicts Demo.conflicted_branch "p"
         (Demo.wanted_opts true)
       = Read.Rejected reasons
       /\ Read.broken_lockfile "p/pnpm-lock.b1.yaml"
            "unexpected end of the stream" ∈ reasons
       /\ forall e, e ∈ reasons ->
          e = Read.broken_lockfile "p/pnpm-lock.b1.yaml"
                "unexpected end of the stream".
Proof.
  split; [reflexivity|].
  pose proof (branch_lockfiles_not_autofixed Demo.conflicted_branch "p"
                (Demo.wanted_opts true)
                ["pnpm-lock.b1.yaml"; "pnpm-lock.b2.yaml"]
                "pnpm-lock.b1.yaml" "<<<<<<< HEAD"
                "unexpected end of the stream" eq_refl)
    as H.
  destruct H as (Hread & _ & Hvariant);
    [by left | reflexivity | reflexivity |].
  split; [exact Hread|].
  destruct (Hvariant [] [] "pnpm-lock.yaml"
              {| Read.lockfile := JS.VObj Demo.base_lockfile;
                 Read.hadConflicts := false |})
    as (reasons & Hrej & Hmem & _ & Honly);
    [reflexivity | reflexivity | constructor | vm_compute; reflexivity
    | reflexivity |].
  exists reasons. split; [exact Hrej|]. split; [exact Hmem|].
  apply Honly. intros f Hf Hne.
  apply elem_of_cons in Hf as [->|Hf]; [done|].
  apply list_elem_of_singleton in Hf as ->.
  eexists. vm_compute. reflexivity.
Defined.

(** The conflict-aware variant on that directory: the branch file with the
    markers is not resolved, the call rejects. *)
Example conflicted_branch_rejects :
  Read.readWantedLockfileAndAutofixConflicts Demo.conflicted_branch "p"
    (Demo.wanted_opts true)
  = Read.Rejected
      [Read.broken_lockfile "p/pnpm-lock.b1.yaml" "unexpected end of the stream"].
Proof. vm_compute. reflexivity. Qed.

(** ** The import command *)

(** Section 8 of the specification: only [package-lock.json], with lodash
    and, under it, debug. *)
Example import_lodash :
  ImportCommand.handler_preferredVersions
    (ImportDemo.directory None (Some ImportDemo.lodash_lock) None) "p"
  = ([ImportCommand.NpmExtraction],
     inr (list_to_map
            [("lodash", list_to_map [("4.17.0", "version")]);
             ("debug", list_to_map [("1.0.0", "version")])])).
Proof. vm_compute. reflexivity. Qed.

(** Both [yarn.lock] and [package-lock.json]: yarn alone is used. *)
Example import_yarn_first :
  ImportCommand.handler_preferredVersions
    (ImportDemo.directory
       (Some [("@babel/core@^7.0.0", ImportDemo.entry "7.1.0");
              ("lodash@^4.17.0", ImportDemo.entry "4.17.21");
              ("lodash@^4.0.0", ImportDemo.entry "4.17.21")])
       (Some ImportDemo.lodash_lock) None) "p"
  = ([ImportCommand.YarnExtraction],
     inr (list_to_map
            [("@babel/core", list_to_map [("7.1.0", "version")]);
             ("lodash", list_to_map [("4.17.21", "version")])])).
Proof. vm_compute. reflexivity. Qed.

(** C3.  The handler enters at most one extraction: the yarn one whenever
    [yarn.lock] exists, whatever else exists; otherwise the npm one when
    [package-lock.json] or [npm-shrinkwrap.json] exists; and when none of
    the three exists it enters none and throws [LOCKFILE_NOT_FOUND]. *)
Theorem handler_one_extraction (E : ImportCommand.Collaborators)
    (dir : string) :
  (ImportCommand.exists_ E (ImportCommand.path_join E dir "yarn.lock") = true ->
   ImportCommand.handler_preferredVersions E dir
   = ([ImportCommand.YarnExtraction], ImportCommand.yarn_extraction E dir))
  /\ (ImportCommand.exists_ E (ImportCommand.path_join E dir "yarn.lock") = false ->
      ImportCommand.exists_ E (ImportCommand.path_join E dir "package-lock.json") = true
      \/ ImportCommand.exists_ E (ImportCommand.path_join E dir "npm-shrinkwrap.json") = true ->
      ImportCommand.handler_preferredVersions E dir
      = ([ImportCommand.NpmExtraction], ImportCommand.npm_extraction E dir))
  /\ (ImportCommand.exists_ E (ImportCommand.path_join E dir "yarn.lock") = false ->
      ImportCommand.exists_ E (ImportCommand.path_join E dir "package-lock.json") = false ->
      ImportCommand.exists_ E (ImportCommand.path_join E dir "npm-shrinkwrap.json") = false ->
      ImportCommand.handler_preferredVersions E dir
      = ([], inl (PnpmError "LOCKFILE_NOT_FOUND" "No lockfile found")))
  /\ (length (fst (ImportCommand.handler_preferredVersions E dir)) <= 1)%nat.
Proof.
  unfold ImportCommand.handler_preferredVersions.
  repeat split.
  - by intros ->.
  - intros -> [-> | ->]; [done|]. by rewrite orb_true_r.
  - by intros -> -> ->.
  - destruct (ImportCommand.exists_ E _); simpl; [lia|].
    destruct (_ || _); simpl; lia.
Qed.

Lemma handler_one_extraction_witness :
  ImportCommand.exists_
    (ImportDemo.directory (Some []) (Some ImportDemo.lodash_lock) None)
    "p/yarn.lock" = true
  /\ ImportCommand.handler_preferredVersions
       (ImportDemo.directory (Some []) (Some ImportDemo.lodash_lock) None) "p"
     = ([ImportCommand.YarnExtraction],
        ImportCommand.yarn_extraction
          (ImportDemo.directory (Some []) (Some ImportDemo.lodash_lock) None)
          "p")
  /\ ImportCommand.handler_preferredVersions
       (ImportDemo.directory None None (Some ImportDemo.lodash_lock)) "p"
     = ([ImportCommand.NpmExtraction],
        ImportCommand.npm_extraction
          (ImportDemo.directory None None (Some ImportDemo.lodash_lock)) "p")
  /\ ImportCommand.handler_preferredVersions
       (ImportDemo.directory None None None) "p"
     = ([], inl (PnpmError "LOCKFILE_NOT_FOUND" "No lockfile found")).
Proof.
  split; [reflexivity|]. split; [|split].
  - apply (proj1 (handler_one_extraction
             (ImportDemo.directory (Some []) (Some ImportDemo.lodash_lock) None)
             "p")).
    reflexivity.
  - apply (proj1 (proj2 (handler_one_extraction
             (ImportDemo.directory None None (Some ImportDemo.lodash_lock))
             "p"))); [reflexivity|]. right. reflexivity.
  - apply (proj1 (proj2 (proj2 (handler_one_extraction
             (ImportDemo.directory None None None) "p")))); reflexivity.
Defined.

Section Walks.
Import ImportCommand.

Lemma record_all_cons (p : string * string) (pairs : list (string * string))
    (acc : gmap string (list string)) :
  record_all (p :: pairs) acc
  = match record_version (fst p) (snd p) acc with
    | inl e => inl e
    | inr acc' => record_all pairs acc'
    end.
Proof.
  unfold record_all. cbn [fold_left].
  destruct (record_version (fst p) (snd p) acc) as [e|acc']; [|done].
  induction pairs as [|q pairs IH]; [done|]. by cbn [fold_left].
Qed.

Lemma record_all_app (l1 l2 : list (string * string))
    (acc : gmap string (list string)) :
  record_all (l1 ++ l2) acc
  = match record_all l1 acc with
    | inl e => inl e
    | inr acc' => record_all l2 acc'
    end.
Proof.
  revert acc. induction l1 as [|p l1 IH]; intros acc; [done|].
  rewrite <- app_comm_cons, !record_all_cons.
  destruct (record_version _ _ acc); [done|]. apply IH.
Qed.

Lemma record_children_all (deps : list (string * LockedPackage))
    (acc : gmap string (list string)) :
  record_children deps acc = record_all (children deps) acc.
Proof.
  revert acc. induction deps as [|[name child] deps IH]; intros acc; [done|].
  unfold children. cbn [map]. rewrite record_all_cons. simpl.
  destruct (record_version name (version child) acc); [done|]. apply IH.
Qed.

Lemma yarn_walk_all (yarnPackageLock : list (string * YarnLockPackage))
    (acc : gmap string (list string)) :
  getAllVersionsFromYarnLockFile yarnPackageLock acc
  = record_all (yarn_pairs yarnPackageLock) acc.
Proof.
  revert acc.
  induction yarnPackageLock as [|[key e] l IH]; intros acc; [done|].
  unfold yarn_pairs. cbn [map]. rewrite record_all_cons. simpl.
  destruct (record_version (pkgName key) (yarn_version e) acc); [done|].
  apply IH.
Qed.

Lemma LockedPackage_nested_ind (P : LockedPackage -> Prop) :
  (forall v, P (mkLockedPackage v None)) ->
  (forall v deps, Forall (fun d => P (snd d)) deps ->
                  P (mkLockedPackage v (Some deps))) ->
  forall p, P p.
Proof.
  intros Hleaf Hnode. fix IH 1. intros [v [deps|]]; [|apply Hleaf].
  apply Hnode. induction deps as [|[name child] deps IHdeps].
  - constructor.
  - constructor; [apply IH | exact IHdeps].
Qed.

(** The npm walk records the nodes of the tree, the children of a node
    first and then what is below each child. *)
Lemma npm_walk_all (npmPackageLock : LockedPackage)
    (acc : gmap string (list string)) :
  getAllVersionsByPackageNames npmPackageLock acc
  = record_all (nodes npmPackageLock) acc.
Proof.
  revert acc.
  induction npmPackageLock as [v|v deps IH] using LockedPackage_nested_ind;
    intros acc; [done|].
  cbn [getAllVersionsByPackageNames nodes].
  rewrite record_all_app, record_children_all.
  destruct (record_all (children deps) acc) as [e|recorded]; [done|].
  clear acc. revert recorded.
  induction IH as [|[name child] deps Hchild _ IHdeps]; intros recorded;
    [done|].
  rewrite record_all_app. simpl in Hchild. rewrite <- Hchild.
  destruct (getAllVersionsByPackageNames child recorded); [done|].
  apply IHdeps.
Qed.

Lemma elem_of_Set_add (v x : string) (versions : list string) :
  x ∈ Set_add v versions <-> x ∈ versions \/ x = v.
Proof.
  unfold Set_add. case_bool_decide as Hin.
  - split; [by left|]. intros [H| ->]; done.
  - rewrite elem_of_app, list_elem_of_singleton. done.
Qed.

Lemma NoDup_Set_add (v : string) (versions : list string) :
  NoDup versions -> NoDup (Set_add v versions).
Proof.
  intros Hnd. unfold Set_add. case_bool_decide as Hin; [done|].
  apply NoDup_app. split; [done|]. split.
  - intros x Hx Hv. apply list_elem_of_singleton in Hv as ->. done.
  - apply NoDup_singleton.
Qed.

(** Recording under a name that is an own property, or that no prototype
    has, succeeds and adds the version to the set of that name. *)
Lemma record_version_ok (name v : string) (acc : gmap string (list string)) :
  JS.inherited name = false \/ is_Some (acc !! name) ->
  record_version name v acc
  = inr (<[name := Set_add v (default [] (acc !! name))]> acc).
Proof.
  intros H. unfold record_version.
  destruct (acc !! name) as [versions|] eqn:Hacc; [done|].
  destruct H as [-> | [? ?]]; done.
Qed.

(** Recording under an inherited name that is no own property throws. *)
Lemma record_version_inherited (name v : string)
    (acc : gmap string (list string)) :
  JS.inherited name = true -> acc !! name = None ->
  exists message, record_version name v acc = inl (TypeError message).
Proof.
  intros Hi Hacc. unfold record_version. rewrite Hacc, Hi. by eexists.
Qed.

(** So a tree, or a yarn lock, whose first name is inherited makes the walk
    throw whatever follows. *)
Lemma npm_walk_inherited_first (name v : string) (child : LockedPackage)
    (rest : list (string * LockedPackage)) :
  JS.inherited name = true ->
  exists message,
    getAllVersionsByPackageNames
      (mkLockedPackage v (Some ((name, child) :: rest))) ∅
    = inl (TypeError message).
Proof.
  intros Hname.
  destruct (record_version_inherited name (version child) ∅ Hname)
    as (message & Hthrown); [apply lookup_empty|].
  exists message. cbn [getAllVersionsByPackageNames record_children].
  by rewrite Hthrown.
Qed.

Lemma yarn_walk_inherited_first (key : string) (e : YarnLockPackage)
    (rest : list (string * YarnLockPackage)) :
  JS.inherited (pkgName key) = true ->
  exists message,
    getAllVersionsFromYarnLockFile ((key, e) :: rest) ∅
    = inl (TypeError message).
Proof.
  intros Hname.
  destruct (record_version_inherited (pkgName key) (yarn_version e) ∅ Hname)
    as (message & Hthrown); [apply lookup_empty|].
  exists message. cbn [getAllVersionsFromYarnLockFile].
  by rewrite Hthrown.
Qed.

Lemma recorded_insert (name v : string) (acc : gmap string (list string))
    (n x : string) :
  recorded (<[name := Set_add v (default [] (acc !! name))]> acc) n x
  <-> recorded acc n x \/ (n = name /\ x = v).
Proof.
  unfold recorded. destruct (decide (n = name)) as [->|Hne].
  - rewrite lookup_insert_eq. split.
    + intros (versions & [= <-] & Hx). apply elem_of_Set_add in Hx as [Hx|Hx].
      * left. destruct (acc !! name) as [old|]; simpl in Hx;
          [by exists old | by apply elem_of_nil in Hx].
      * by right.
    + intros [(versions & Hacc & Hx) | [_ ->]].
      * eexists. split; [done|]. rewrite Hacc. simpl.
        apply elem_of_Set_add. by left.
      * eexists. split; [done|]. apply elem_of_Set_add. by right.
  - rewrite lookup_insert_ne by done. split; [by left|].
    intros [H | [? _]]; done.
Qed.

Lemma sets_NoDup_insert (name v : string) (acc : gmap string (list string)) :
  sets_NoDup acc ->
  sets_NoDup (<[name := Set_add v (default [] (acc !! name))]> acc).
Proof.
  intros Hnd n versions. destruct (decide (n = name)) as [->|Hne].
  - rewrite lookup_insert_eq. intros [= <-]. apply NoDup_Set_add.
    destruct (acc !! name) as [old|] eqn:Hacc; simpl.
    + by apply (Hnd name).
    + apply NoDup_nil_2.
  - rewrite lookup_insert_ne by done. apply Hnd.
Qed.

(** Recording pairs none of whose names is inherited succeeds; afterwards a
    version is in the set of a name exactly when it was before or the pair
    is among those recorded, and no set holds a version twice. *)
Lemma record_all_ok (pairs : list (string * string))
    (acc : gmap string (list string)) :
  Forall (fun p => JS.inherited (fst p) = false) pairs ->
  exists acc' : gmap string (list string),
    record_all pairs acc = inr acc'
    /\ (forall n x, recorded acc' n x <-> recorded acc n x \/ (n, x) ∈ pairs)
    /\ (sets_NoDup acc -> sets_NoDup acc').
Proof.
  intros Hok. revert acc.
  induction Hok as [|[name v] pairs Hname _ IH]; intros acc.
  - exists acc. split; [done|]. split; [|done].
    intros n x. split; [by left|]. intros [H|H]; [done|].
    by apply elem_of_nil in H.
  - rewrite record_all_cons. simpl in *.
    rewrite record_version_ok by (by left).
    destruct (IH (<[name := Set_add v (default [] (acc !! name))]> acc))
      as (acc' & Hrec & Hiff & Hnd).
    exists acc'. split; [done|]. split.
    + intros n x. rewrite Hiff, recorded_insert, elem_of_cons.
      split.
      * intros [[H|[-> ->]]|H]; auto.
      * intros [H|[[= -> ->]|H]]; auto.
    + intros H. by apply Hnd, sets_NoDup_insert.
Qed.

(** *** The name of a yarn key *)

Lemma lastIndexOf_without_at (range : string) (i found : Z) :
  contains_at range = false -> lastIndexOf_from i found range = found.
Proof.
  revert i found. induction range as [|c range IH]; intros i found; [done|].
  simpl. intros H. apply orb_false_iff in H as [Hc Hrange].
  rewrite Hc. by apply IH.
Qed.

Lemma lastIndexOf_key (name range : string) (i found : Z) :
  contains_at range = false ->
  lastIndexOf_from i found (name ++ String "@" range)
  = (i + Z.of_nat (String.length name))%Z.
Proof.
  intros Hrange. revert i found.
  induction name as [|c name IH]; intros i found.
  - simpl. rewrite lastIndexOf_without_at by done. lia.
  - change (String c name ++ String "@" range)
      with (String c (name ++ String "@" range)).
    cbn [lastIndexOf_from]. rewrite IH.
    change (String.length (String c name)) with (S (String.length name)).
    lia.
Qed.

Lemma substring_prefix (name rest : string) :
  String.substring 0 (String.length name) (name ++ rest) = name.
Proof.
  induction name as [|c name IH]; simpl.
  - by destruct rest.
  - by rewrite IH.
Qed.

Lemma length_append (a b : string) :
  String.length (a ++ b) = (String.length a + String.length b)%nat.
Proof. induction a as [|c a IH]; simpl; [done|]. by rewrite IH. Qed.

(** The name taken from a key [name@range] whose range has no [@] is
    [name]: the text before the last [@] of the key. *)
Lemma pkgName_key (name range : string) :
  contains_at range = false ->
  pkgName (name ++ String "@" range) = name.
Proof.
  intros Hrange. unfold pkgName, lastIndexOf_at, substring.
  rewrite lastIndexOf_key by done.
  rewrite length_append. cbn [String.length].
  set (n := String.length name). set (r := String.length range).
  replace (Z.min (Z.max 0 (Z.min 0 (Z.of_nat (n + S r))))
             (Z.max 0 (Z.min (0 + Z.of_nat n) (Z.of_nat (n + S r)))))
    with 0%Z by lia.
  replace (Z.max (Z.max 0 (Z.min 0 (Z.of_nat (n + S r))))
             (Z.max 0 (Z.min (0 + Z.of_nat n) (Z.of_nat (n + S r)))))
    with (Z.of_nat n) by lia.
  rewrite Z.sub_0_r, Nat2Z.id. simpl Z.to_nat.
  apply substring_prefix.
Qed.

(** *** The preferred versions *)

Lemma tag_fold_lookup (versions : list string) (acc : gmap string string)
    (x : string) :
  fold_left tag_version versions acc !! x
  = if bool_decide (x ∈ versions /\ x <> "__proto__") then Some "version"
    else acc !! x.
Proof.
  revert acc. induction versions as [|v versions IH]; intros acc.
  - cbn [fold_left]. rewrite bool_decide_eq_false_2; [done|].
    intros [H _]. by apply elem_of_nil in H.
  - cbn [fold_left]. rewrite IH. unfold tag_version.
    destruct (String.eqb_spec v "__proto__") as [->|Hv].
    + rewrite (bool_decide_ext (x ∈ "__proto__" :: versions /\ x <> "__proto__")
                 (x ∈ versions /\ x <> "__proto__")); [done|].
      rewrite elem_of_cons. naive_solver.
    + case_bool_decide as H1; case_bool_decide as H2; try done.
      * exfalso. apply H2. rewrite elem_of_cons. naive_solver.
      * rewrite elem_of_cons in H2. destruct H2 as [[->|H2] Hx];
          [by rewrite lookup_insert_eq | naive_solver].
      * rewrite lookup_insert_ne; [done|].
        intros ->. apply H2. rewrite elem_of_cons. naive_solver.
Qed.

Lemma preferred_lookup (acc : gmap string (list string)) (name : string) :
  name <> "__proto__" ->
  getPreferredVersions acc !! name
  = (fun versions => fold_left tag_version versions ∅) <$> (acc !! name).
Proof.
  intros Hname. unfold getPreferredVersions. rewrite map_lookup_imap.
  destruct (acc !! name) as [versions|]; simpl; [|done].
  destruct (String.eqb_spec name "__proto__"); done.
Qed.

Lemma recorded_empty (n x : string) : ~ recorded ∅ n x.
Proof. intros (versions & H & _). by rewrite lookup_empty in H. Qed.

(** From an empty index and pairs none of whose names is inherited: the
    index holds exactly the pairs, each once, and the preferred versions map
    each name to its versions, each tagged ["version"] (the version
    [__proto__] apart, which cannot be a key). *)
Lemma preferred_of_pairs (pairs : list (string * string)) :
  Forall (fun p => JS.inherited (fst p) = false) pairs ->
  exists index : gmap string (list string),
    record_all pairs ∅ = inr index
    /\ (forall n x, recorded index n x <-> (n, x) ∈ pairs)
    /\ sets_NoDup index
    /\ (forall n x, x <> "__proto__" ->
        (exists tags, getPreferredVersions index !! n = Some tags
                      /\ tags !! x = Some "version")
        <-> (n, x) ∈ pairs)
    /\ (forall n tags x t,
        getPreferredVersions index !! n = Some tags ->
        tags !! x = Some t -> t = "version").
Proof.
  intros Hok. destruct (record_all_ok pairs ∅ Hok) as (index & Hrec & Hiff & Hnd).
  exists index. split; [done|].
  assert (Hpairs : forall n x, recorded index n x <-> (n, x) ∈ pairs).
  { intros n x. rewrite Hiff. split; [|by right].
    intros [H|H]; [by apply recorded_empty in H | done]. }
  assert (Hkeys : forall n, is_Some (index !! n) -> JS.inherited n = false
                             \/ index !! n = Some []).
  { intros n [versions Hn]. destruct versions as [|x versions]; [by right|].
    left. assert (Hin : (n, x) ∈ pairs).
    { apply Hpairs. exists (x :: versions). split; [done | by left]. }
    rewrite Forall_forall in Hok. by apply (Hok (n, x)). }
  split; [done|]. split.
  { apply Hnd. intros n versions H. by rewrite lookup_empty in H. }
  split.
  - intros n x Hx. rewrite <- Hpairs. unfold recorded. split.
    + intros (tags & Htags & Hxv).
      destruct (decide (n = "__proto__")) as [->|Hn].
      { unfold getPreferredVersions in Htags. rewrite map_lookup_imap in Htags.
        destruct (index !! "__proto__"); simpl in Htags; done. }
      rewrite preferred_lookup in Htags by done.
      destruct (index !! n) as [versions|]; simpl in Htags; [|done].
      exists versions. split; [done|]. injection Htags as <-.
      rewrite tag_fold_lookup in Hxv.
      case_bool_decide as H; [by destruct H|]. by rewrite lookup_empty in Hxv.
    + intros (versions & Hn & Hxv).
      assert (n <> "__proto__") as Hne.
      { intros ->. destruct (Hkeys "__proto__") as [H|H]; [by eexists|done|].
        rewrite Hn in H. injection H as ->. by apply elem_of_nil in Hxv. }
      exists (fold_left tag_version versions ∅).
      rewrite preferred_lookup, Hn by done. split; [done|].
      rewrite tag_fold_lookup. by rewrite bool_decide_eq_true_2.
  - intros n tags x t Htags Hxt.
    unfold getPreferredVersions in Htags. rewrite map_lookup_imap in Htags.
    destruct (index !! n) as [versions|]; simpl in Htags; [|done].
    destruct (String.eqb n "__proto__"); [done|]. injection Htags as <-.
    rewrite tag_fold_lookup in Hxt.
    case_bool_decide; [congruence|]. by rewrite lookup_empty in Hxt.
Qed.

(** The npm walk of a tree none of whose package names is inherited from
    [Object.prototype]. *)
Lemma npm_walk_records (npmPackageLock : LockedPackage) :
  Forall (fun p => JS.inherited (fst p) = false) (nodes npmPackageLock) ->
  exists index : gmap string (list string),
    getAllVersionsByPackageNames npmPackageLock ∅ = inr index
    /\ (forall n x, recorded index n x <-> (n, x) ∈ nodes npmPackageLock)
    /\ sets_NoDup index
    /\ (forall n x, x <> "__proto__" ->
        (exists tags, getPreferredVersions index !! n = Some tags
                      /\ tags !! x = Some "version")
        <-> (n, x) ∈ nodes npmPackageLock)
    /\ (forall n tags x t,
        getPreferredVersions index !! n = Some tags ->
        tags !! x = Some t -> t = "version").
Proof. rewrite npm_walk_all. apply preferred_of_pairs. Qed.

(** The yarn walk of a lock none of whose keys names an inherited
    property. *)
Lemma yarn_walk_records (yarnPackageLock : list (string * YarnLockPackage)) :
  Forall (fun k => JS.inherited (pkgName (fst k)) = false) yarnPackageLock ->
  exists index : gmap string (list string),
    getAllVersionsFromYarnLockFile yarnPackageLock ∅ = inr index
    /\ (forall n x, recorded index n x
                    <-> exists key e, (key, e) ∈ yarnPackageLock
                                      /\ pkgName key = n
                                      /\ yarn_version e = x)
    /\ sets_NoDup index.
Proof.
  intros Hok. rewrite yarn_walk_all.
  destruct (preferred_of_pairs (yarn_pairs yarnPackageLock))
    as (index & Hrec & Hiff & Hnd & _).
  { unfold yarn_pairs. by apply Forall_fmap. }
  exists index. split; [done|]. split; [|done].
  intros n x. rewrite Hiff. unfold yarn_pairs. rewrite list_elem_of_fmap.
  split.
  - intros ([key e] & [= -> ->] & Hin). by exists key, e.
  - intros (key & e & Hin & <- & <-). by exists (key, e).
Qed.

End Walks.

(** C4.  The claim fails on a tree with a package named as a property of
    [Object.prototype]: for [{dependencies: {constructor: {version:
    "1.0.0"}}}] the walk records nothing and throws a [TypeError], and so
    does the handler; [npm_walk_records] is what holds for the other
    trees. *)
Theorem npm_walk_inherited_name_throws :
  ImportCommand.getAllVersionsByPackageNames ImportDemo.constructor_lock ∅
  = inl (TypeError "versionsByPackageNames[packageName].add is not a function")
  /\ ImportCommand.handler_preferredVersions
       (ImportDemo.directory None (Some ImportDemo.constructor_lock) None) "p"
     = ([ImportCommand.NpmExtraction],
        inl (TypeError "versionsByPackageNames[packageName].add is not a function")).
Proof. split; vm_compute; reflexivity. Qed.

(** C8.  The claim fails on a key whose name is a property of
    [Object.prototype]: for the key [constructor@^1.0.0] the name taken is
    [constructor], the text before the last [@], but the version is not
    added to any set, the walk throws a [TypeError]; [pkgName_key] and
    [yarn_walk_records] are what holds for the other keys. *)
Theorem yarn_walk_inherited_name_throws :
  ImportCommand.pkgName "constructor@^1.0.0" = "constructor"
  /\ ImportCommand.getAllVersionsFromYarnLockFile
       [("constructor@^1.0.0", ImportDemo.entry "1.0.0")] ∅
     = inl (TypeError "versionsByPackageNames[packageName].add is not a function")
  /\ ImportCommand.handler_preferredVersions
       (ImportDemo.directory
          (Some [("constructor@^1.0.0", ImportDemo.entry "1.0.0")]) None None)
       "p"
     = ([ImportCommand.YarnExtraction],
        inl (TypeError "versionsByPackageNames[packageName].add is not a function")).
Proof. repeat split; vm_compute; reflexivity. Qed.

(** Keys of scoped and plain packages, and a key with no [@] at all, for
    which [lastIndexOf] is -1 and the name is empty. *)
Example pkgName_examples :
  ImportCommand.pkgName "@babel/core@^7.0.0" = "@babel/core"
  /\ ImportCommand.pkgName "lodash@^4.17.0" = "lodash"
  /\ ImportCommand.pkgName "lodash" = "".
Proof. repeat split; reflexivity. Qed.

(** * Further properties of the code *)

(** ** The shared read routine, as a whole *)
Section ReadShape.
Import JS Read.
Context (E : Collaborators).

Lemma check_version_returns_present (lockfilePath prefix : string)
    (opts : ReadOpts) (doc : value) (conflicts : bool) (r : ReadResult) :
  outcome (check_version E lockfilePath prefix opts doc conflicts) = inr r ->
  r = absent
  \/ (r = {| lockfile := doc; hadConflicts := conflicts |}
      /\ truthy doc = true).
Proof.
  unfold check_version. destruct (truthy doc) eqn:Hdoc.
  2: { intros H. left. eapply incompatible_returns, H. }
  intros H. apply outcome_bind_inr in H as (s & _ & H).
  apply outcome_bind_inr in H as (same & _ & H).
  destruct same.
  2: { left. eapply incompatible_returns, H. }
  apply outcome_bind_inr in H as (u & _ & H).
  simpl in H. right. split; [congruence|done].
Qed.

(** What a returning read went through: nothing for a missing file; else
    the text was read, and parsed or resolved to a document. *)
Lemma read_returns (lockfilePath prefix : string) (opts : ReadOpts)
    (r : ReadResult) :
  outcome (_read E lockfilePath prefix opts) = inr r ->
  r = absent
  \/ exists content p,
       readFile E lockfilePath = inr content
       /\ outcome (parse E lockfilePath prefix opts (stripBom E content))
          = inr p
       /\ r = {| lockfile := migrate (fst p); hadConflicts := snd p |}
       /\ truthy (migrate (fst p)) = true.
Proof.
  unfold _read, read_raw.
  destruct (readFile E lockfilePath) as [err|content] eqn:Hread.
  - case_bool_decide; [|done]. rewrite bind_ret. unfold outcome. simpl.
    intros [= <-]. by left.
  - rewrite bind_ret. intros H.
    apply outcome_bind_inr in H as (p & Hp & H).
    apply check_version_returns_present in H as [->|[-> Ht]]; [by left|].
    right. by exists content, p.
Qed.

Lemma parse_returns (lockfilePath prefix : string) (opts : ReadOpts)
    (raw : string) (p : value * bool) :
  outcome (parse E lockfilePath prefix opts raw) = inr p ->
  (yaml_load E raw = inr (fst p) /\ snd p = false)
  \/ (exists message, yaml_load E raw = inl message)
     /\ opt_autofixMergeConflicts opts = true
     /\ isDiff E raw = true
     /\ autofixMergeConflicts E raw = inr (fst p)
     /\ snd p = true.
Proof.
  unfold parse. destruct (yaml_load E raw) as [message|doc] eqn:Hparse.
  - destruct (opt_autofixMergeConflicts opts); cbn [negb orb]; [|done].
    destruct (isDiff E raw); cbn [negb]; [|done].
    destruct (autofixMergeConflicts E raw) as [e|doc]; [done|].
    rewrite bind_lift_inr, bind_tell. unfold outcome. simpl.
    intros [= <-]. right. repeat split; eauto.
  - unfold outcome. simpl. intros [= <-]. by left.
Qed.

End ReadShape.

(** X1.  Whatever the shared read routine returns is the absent lockfile
    with [hadConflicts = false], or a present (truthy) document in the
    migrated shape, with no [specifiers] at its root. *)
Theorem read_result_shape (E : Read.Collaborators)
    (lockfilePath prefix : string) (opts : Read.ReadOpts)
    (r : Read.ReadResult) :
  outcome (Read._read E lockfilePath prefix opts) = inr r ->
  r = {| Read.lockfile := JS.VNull; Read.hadConflicts := false |}
  \/ (JS.truthy (Read.lockfile r) = true
      /\ JS.is_undefined (JS.get (Read.lockfile r) "specifiers") = true).
Proof.
  intros H. apply read_returns in H as [->|(content & p & _ & _ & -> & Ht)].
  - by left.
  - right. split; [done|]. apply migrated_specifiers.
Qed.

Lemma read_result_shape_witness :
  JS.truthy (Read.migrate (Demo.with_version "5.4")) = true
  /\ JS.is_undefined
       (JS.get (Read.migrate (Demo.with_version "5.4")) "specifiers") = true.
Proof.
  destruct (read_result_shape (Demo.one_file (Demo.with_version "5.4"))
              "p/pnpm-lock.yaml" "p" (Demo.opts false None false)
              {| Read.lockfile := Read.migrate (Demo.with_version "5.4");
                 Read.hadConflicts := false |} eq_refl) as [H|H].
  - discriminate H.
  - exact H.
Defined.

(** X2.  The routine reports [hadConflicts = true] only when auto-fix was
    enabled, the text did not parse, it matched the conflict-marker pattern
    and the resolver produced the document that is returned (migrated). *)
Theorem read_conflicts_only_when_resolved (E : Read.Collaborators)
    (lockfilePath prefix : string) (opts : Read.ReadOpts)
    (r : Read.ReadResult) :
  outcome (Read._read E lockfilePath prefix opts) = inr r ->
  Read.hadConflicts r = true ->
  Read.opt_autofixMergeConflicts opts = true
  /\ exists content message doc,
       Read.readFile E lockfilePath = inr content
       /\ Read.yaml_load E (Read.stripBom E content) = inl message
       /\ Read.isDiff E (Read.stripBom E content) = true
       /\ Read.autofixMergeConflicts E (Read.stripBom E content) = inr doc
       /\ Read.lockfile r = Read.migrate doc.
Proof.
  intros H Hc.
  apply read_returns in H as [->|(content & p & Hread & Hp & -> & _)];
    [done|].
  simpl in Hc.
  apply parse_returns in Hp
    as [[_ Hno]|((message & Hm) & Hon & Hdiff & Hfix & _)]; [congruence|].
  split; [done|]. by exists content, message, (fst p).
Qed.

Lemma read_conflicts_only_when_resolved_witness :
  Read.opt_autofixMergeConflicts (Demo.opts true None false) = true
  /\ exists content message doc,
       Read.readFile (Demo.conflicted_file (Demo.with_version "5.4"))
         "p/pnpm-lock.yaml" = inr content
       /\ Read.yaml_load (Demo.conflicted_file (Demo.with_version "5.4"))
            (Read.stripBom (Demo.conflicted_file (Demo.with_version "5.4"))
               content) = inl message
       /\ Read.isDiff (Demo.conflicted_file (Demo.with_version "5.4"))
            (Read.stripBom (Demo.conflicted_file (Demo.with_version "5.4"))
               content) = true
       /\ Read.autofixMergeConflicts
            (Demo.conflicted_file (Demo.with_version "5.4"))
            (Read.stripBom (Demo.conflicted_file (Demo.with_version "5.4"))
               content) = inr doc
       /\ Read.migrate (Demo.with_version "5.4") = Read.migrate doc.
Proof.
  apply (read_conflicts_only_when_resolved
           (Demo.conflicted_file (Demo.with_version "5.4"))
           "p/pnpm-lock.yaml" "p" (Demo.opts true None false)
           {| Read.lockfile := Read.migrate (Demo.with_version "5.4");
              Read.hadConflicts := true |});
    reflexivity.
Defined.

Lemma bind_ext {A B} (m : M A) (k k' : A -> M B) :
  (forall a, k a = k' a) -> bind m k = bind m k'.
Proof. intros H. destruct m as [l [e|a]]; simpl; [done|]. by rewrite H. Qed.

Lemma check_version_unwanted_semver (E : Read.Collaborators)
    (major : string -> error + N) (gt : string -> string -> error + bool)
    (lockfilePath prefix : string) (opts : Read.ReadOpts)
    (doc : JS.value) (conflicts : bool) :
  Read.wantedVersion opts = None ->
  Read.check_version (Read.with_semver E major gt) lockfilePath prefix opts
    doc conflicts
  = Read.check_version E lockfilePath prefix opts doc conflicts.
Proof. intros Hw. unfold Read.check_version. rewrite Hw. reflexivity. Qed.

(** X3.  When no [wantedVersion] is requested the routine never consults
    the version library: with any other [semver.major] and [semver.gt],
    throwing ones included, it logs and returns the same. *)
Theorem read_unwanted_ignores_semver (E : Read.Collaborators)
    (major : string -> error + N) (gt : string -> string -> error + bool)
    (lockfilePath prefix : string) (opts : Read.ReadOpts) :
  Read.wantedVersion opts = None ->
  Read._read (Read.with_semver E major gt) lockfilePath prefix opts
  = Read._read E lockfilePath prefix opts.
Proof.
  intros Hw. unfold Read._read.
  change (Read.read_raw (Read.with_semver E major gt) lockfilePath)
    with (Read.read_raw E lockfilePath).
  apply bind_ext. intros [raw|]; [|done].
  change (Read.parse (Read.with_semver E major gt) lockfilePath prefix opts raw)
    with (Read.parse E lockfilePath prefix opts raw).
  apply bind_ext. intros p. by apply check_version_unwanted_semver.
Qed.

Lemma read_unwanted_ignores_semver_witness :
  Read._read
    (Read.with_semver (Demo.one_file (Demo.with_version "not a version"))
       (fun _ => inl (TypeError "Invalid Version"))
       (fun _ _ => inl (TypeError "Invalid Version")))
    "p/pnpm-lock.yaml" "p" (Demo.opts false None false)
  = ([], inr {| Read.lockfile := Demo.with_version "not a version";
                Read.hadConflicts := false |}).
Proof.
  rewrite (read_unwanted_ignores_semver
             (Demo.one_file (Demo.with_version "not a version"))
             (fun _ => inl (TypeError "Invalid Version"))
             (fun _ _ => inl (TypeError "Invalid Version"))
             "p/pnpm-lock.yaml" "p" (Demo.opts false None false) eq_refl).
  vm_compute. reflexivity.
Defined.

(** X4.  A version that the version library rejects is not an incompatible
    version: when a [wantedVersion] is requested and [semver.major] throws
    on the document's version, or on the wanted one, the routine throws
    that same error, whatever [ignoreIncompatible] is. *)
Theorem read_invalid_version_thrown (E : Read.Collaborators)
    (lockfilePath prefix : string) (opts : Read.ReadOpts)
    (content : string) (doc : JS.value) (s w : string) (e : error) :
  Read.readFile E lockfilePath = inr content ->
  Read.yaml_load E (Read.stripBom E content) = inr doc ->
  JS.truthy doc = true ->
  Read.toString_or_0 E (JS.get doc "lockfileVersion") = ret s ->
  Read.wantedVersion opts = Some w ->
  (Read.semver_major E (Read.comverToSemver E s) = inl e ->
   Read._read E lockfilePath prefix opts = ([], inl e))
  /\ (forall m : N,
      Read.semver_major E (Read.comverToSemver E s) = inr m ->
      Read.semver_major E (Read.comverToSemver E w) = inl e ->
      Read._read E lockfilePath prefix opts = ([], inl e)).
Proof.
  intros Hread Hparse Htruthy Hs Hw.
  rewrite (read_parsed E _ _ _ _ _ Hread Hparse).
  unfold Read.check_version.
  rewrite truthy_migrate, Htruthy.
  rewrite get_migrate by apply lockfileVersion_stays.
  rewrite Hs, bind_ret, Hw. split.
  - intros ->. reflexivity.
  - intros m -> ->. rewrite bind_lift_inr. reflexivity.
Qed.

Lemma read_invalid_version_thrown_witness :
  Read._read (Demo.one_file (Demo.with_version "5.4.1")) "p/pnpm-lock.yaml"
    "p" (Demo.opts false (Some "5.4") true)
  = ([], inl (Demo.invalid "5.4.1.0")).
Proof.
  apply (proj1 (read_invalid_version_thrown
           (Demo.one_file (Demo.with_version "5.4.1")) "p/pnpm-lock.yaml" "p"
           (Demo.opts false (Some "5.4") true) "raw"
           (Demo.with_version "5.4.1") "5.4.1" "5.4" (Demo.invalid "5.4.1.0")
           eq_refl eq_refl eq_refl eq_refl eq_refl)).
  reflexivity.
Defined.

(** ** What the migration moves *)
Section MigrationMoves.
Import JS Read.

Lemma move_field_importer_lookup (st : gmap string value * gmap string value)
    (depType k : string) :
  k <> depType -> snd (move_field st depType) !! k = snd st !! k.
Proof.
  intros Hk. destruct st as [root importer]. unfold move_field.
  destruct (nullish _); simpl; [done|]. by rewrite lookup_insert_ne.
Qed.

Lemma moved_importer_lookup (fields : list string)
    (st : gmap string value * gmap string value) (k : string) :
  k ∉ fields -> snd (fold_left move_field fields st) !! k = snd st !! k.
Proof.
  revert st. induction fields as [|f fields IH]; intros st Hk; [done|].
  apply not_elem_of_cons in Hk as [Hf Hk].
  simpl. rewrite IH by done. by apply move_field_importer_lookup.
Qed.

(** One round on its own field: a field that is missing or [null] stays
    where it is, any other leaves the root for the importer record. *)
Lemma move_field_moves (st : gmap string value * gmap string value)
    (f : string) :
  if nullish (default VUndef (fst st !! f))
  then fst (move_field st f) !! f = fst st !! f
       /\ snd (move_field st f) !! f = snd st !! f
  else fst (move_field st f) !! f = None
       /\ snd (move_field st f) !! f = fst st !! f.
Proof.
  destruct st as [root importer]. unfold move_field. simpl.
  destruct (nullish (default VUndef (root !! f))) eqn:Hn; simpl; [done|].
  rewrite lookup_delete_eq, lookup_insert_eq. split; [done|].
  destruct (root !! f); [done|]. simpl in Hn. discriminate.
Qed.

Lemma moved_fields (fields : list string)
    (st : gmap string value * gmap string value) (f : string) :
  NoDup fields -> f ∈ fields ->
  if nullish (default VUndef (fst st !! f))
  then fst (fold_left move_field fields st) !! f = fst st !! f
       /\ snd (fold_left move_field fields st) !! f = snd st !! f
  else fst (fold_left move_field fields st) !! f = None
       /\ snd (fold_left move_field fields st) !! f = fst st !! f.
Proof.
  revert st. induction fields as [|g fields IH]; intros st Hnd Hf.
  - by apply elem_of_nil in Hf.
  - apply NoDup_cons in Hnd as [Hg Hnd]. cbn [fold_left].
    apply elem_of_cons in Hf as [->|Hf].
    + rewrite moved_root_lookup, moved_importer_lookup by done.
      apply move_field_moves.
    + assert (f <> g) as Hne by (intros ->; done).
      specialize (IH (move_field st g) Hnd Hf).
      rewrite move_field_root_lookup, move_field_importer_lookup in IH by done.
      exact IH.
Qed.

Lemma DEPENDENCIES_FIELDS_NoDup : NoDup DEPENDENCIES_FIELDS.
Proof.
  unfold DEPENDENCIES_FIELDS.
  repeat (apply NoDup_cons; split;
          [intros H; repeat (apply elem_of_cons in H as [H|H]; [discriminate|]);
           by apply elem_of_nil in H|]).
  apply NoDup_nil_2.
Qed.

End MigrationMoves.

(** X5.  On a legacy document (an object with [specifiers] at its root)
    the migration writes [importers] anew, with the single importer ['.']:
    that record holds the root's [specifiers], a copy of the root's
    [dependenciesMeta] and every dependency field of the root that is
    neither missing nor [null]; those fields and [specifiers] leave the
    root, a dependency field that is [null] stays at the root and is not
    copied, [dependenciesMeta] stays at the root, and every other root
    field is as it was. *)
Theorem migrate_moves_legacy_fields (o : gmap string JS.value) :
  JS.is_undefined (JS.get (JS.VObj o) "specifiers") = false ->
  exists root importer : gmap string JS.value,
    Read.migrate (JS.VObj o) = JS.VObj root
    /\ root !! "importers"
       = Some (JS.VObj (<["." := JS.VObj importer]> ∅))
    /\ root !! "specifiers" = None
    /\ importer !! "specifiers" = o !! "specifiers"
    /\ importer !! "dependenciesMeta"
       = Some (JS.get (JS.VObj o) "dependenciesMeta")
    /\ (forall f, f ∈ Read.DEPENDENCIES_FIELDS ->
        if JS.nullish (JS.get (JS.VObj o) f)
        then root !! f = o !! f /\ importer !! f = None
        else root !! f = None /\ importer !! f = o !! f)
    /\ (forall k, k ∉ "specifiers" :: "importers" :: Read.DEPENDENCIES_FIELDS ->
        root !! k = o !! k).
Proof.
  intros Hlegacy. unfold Read.migrate. rewrite Hlegacy.
  set (importer0 :=
         <["dependenciesMeta" := default JS.VUndef (o !! "dependenciesMeta")]>
           (<["specifiers" := default JS.VUndef (o !! "specifiers")]> ∅)
         : gmap string JS.value).
  set (st := fold_left Read.move_field Read.DEPENDENCIES_FIELDS
               (delete "specifiers" o, importer0)).
  exists (<["importers" := JS.VObj (<["." := JS.VObj (snd st)]> ∅)]> (fst st)),
         (snd st).
  split; [reflexivity|]. split; [by rewrite lookup_insert_eq|]. split.
  { rewrite lookup_insert_ne by done. apply moved_root_none.
    simpl. by rewrite lookup_delete_eq. }
  split.
  { unfold st. rewrite moved_importer_lookup.
    - simpl. unfold importer0. rewrite lookup_insert_ne by done.
      rewrite lookup_insert_eq. simpl in Hlegacy.
      destruct (o !! "specifiers"); [done|]. simpl in Hlegacy. discriminate.
    - unfold Read.DEPENDENCIES_FIELDS. intros H.
      repeat (apply elem_of_cons in H as [H|H]; [discriminate|]).
      by apply elem_of_nil in H. }
  split.
  { unfold st. rewrite moved_importer_lookup.
    - simpl. unfold importer0. by rewrite lookup_insert_eq.
    - unfold Read.DEPENDENCIES_FIELDS. intros H.
      repeat (apply elem_of_cons in H as [H|H]; [discriminate|]).
      by apply elem_of_nil in H. }
  split.
  - intros f Hf.
    assert (Hfs : f <> "specifiers" /\ f <> "importers"
                  /\ f <> "dependenciesMeta").
    { unfold Read.DEPENDENCIES_FIELDS in Hf.
      repeat (apply elem_of_cons in Hf as [->|Hf]; [done|]).
      by apply elem_of_nil in Hf. }
    destruct Hfs as (Hs & Hi & Hm).
    pose proof (moved_fields Read.DEPENDENCIES_FIELDS
                  (delete "specifiers" o, importer0) f
                  DEPENDENCIES_FIELDS_NoDup Hf) as Hmoved.
    fold st in Hmoved. simpl in Hmoved.
    rewrite lookup_delete_ne in Hmoved by done.
    rewrite (lookup_insert_ne (fst st)) by done.
    simpl. destruct (JS.nullish (default JS.VUndef (o !! f))); [|done].
    destruct Hmoved as [Hroot Himp]. split; [done|].
    rewrite Himp. unfold importer0.
    rewrite !lookup_insert_ne by done. apply lookup_empty.
  - intros k Hk. by apply (migrate_props_lookup o k).
Qed.

Lemma migrate_moves_legacy_fields_witness :
  exists root importer : gmap string JS.value,
    Read.migrate
      (JS.VObj (list_to_map
         [("specifiers", Demo.obj [("a", JS.VStr "^1.0.0")]);
          ("dependencies", Demo.obj [("a", JS.VStr "1.0.0")]);
          ("devDependencies", JS.VNull)]))
    = JS.VObj root
    /\ root !! "importers" = Some (JS.VObj (<["." := JS.VObj importer]> ∅))
    /\ root !! "devDependencies" = Some JS.VNull
    /\ root !! "dependencies" = None
    /\ importer !! "dependencies"
       = Some (Demo.obj [("a", JS.VStr "1.0.0")]).
Proof.
  destruct (migrate_moves_legacy_fields
              (list_to_map
                 [("specifiers", Demo.obj [("a", JS.VStr "^1.0.0")]);
                  ("dependencies", Demo.obj [("a", JS.VStr "1.0.0")]);
                  ("devDependencies", JS.VNull)]))
    as (root & importer & Hm & Hi & _ & _ & _ & Hf & _); [reflexivity|].
  exists root, importer. split; [exact Hm|]. split; [exact Hi|].
  pose proof (Hf "devDependencies") as Hdev.
  pose proof (Hf "dependencies") as Hdep.
  split; [apply Hdev; right; right; left|].
  split; apply Hdep; right; left.
Defined.

(** ** The public read functions *)
Section PublicReads.
Import JS Read.
Context (E : Collaborators).

(** Reading with auto-fix off, when it returns, is reading with auto-fix
    on, and reports no conflicts. *)
Lemma read_autofix_irrelevant (lockfilePath prefix : string)
    (opts : WantedOpts) (r : ReadResult) :
  outcome (_read E lockfilePath prefix (read_opts opts false)) = inr r ->
  _read E lockfilePath prefix (read_opts opts true)
  = _read E lockfilePath prefix (read_opts opts false)
  /\ hadConflicts r = false.
Proof.
  intros H. unfold _read, read_raw in *.
  destruct (readFile E lockfilePath) as [err|content].
  - case_bool_decide; [|done]. rewrite bind_ret in *.
    unfold outcome in H. simpl in H. injection H as <-. done.
  - rewrite !bind_ret in *. unfold parse in *.
    destruct (yaml_load E (stripBom E content)) as [message|doc]; [done|].
    rewrite !bind_ret in *. cbn [fst snd] in *. split; [reflexivity|].
    apply check_version_returns_present in H as [->|[-> _]]; done.
Qed.

(** A read that returns a lockfile that is not truthy returns the absent
    one. *)
Lemma read_falsy_absent (lockfilePath prefix : string) (opts : ReadOpts)
    (r : ReadResult) :
  outcome (_read E lockfilePath prefix opts) = inr r ->
  truthy (lockfile r) = false -> r = absent.
Proof.
  intros H Hf. apply read_returns in H as [->|(c & p & _ & _ & -> & Ht)];
    [done|]. simpl in Hf. congruence.
Qed.

Lemma wanted_loop_found (pkgPath : string) (opts : WantedOpts)
    (skipped rest : list string) (name : string) (current : value) :
  Forall (fun n =>
      outcome (_read E (path_join E pkgPath n) pkgPath (read_opts opts false))
      = inr absent) skipped ->
  wanted_loop E pkgPath opts (skipped ++ name :: rest) current
  = await (settle (outcome (_read E (path_join E pkgPath name) pkgPath
                              (read_opts opts false)))) (fun result =>
      if truthy (lockfile result) then
        if mergeGitBranchLockfiles opts then
          _mergeGitBranchLockfiles E (lockfile result) pkgPath pkgPath
            (read_opts opts false)
        else Fulfilled (lockfile result)
      else wanted_loop E pkgPath opts rest (lockfile result)).
Proof.
  intros Hskipped. revert current.
  induction Hskipped as [|n skipped Hn _ IH]; intros current; [done|].
  cbn [app wanted_loop]. rewrite Hn. simpl. apply IH.
Qed.

Lemma wanted_loop_absent (pkgPath : string) (opts : WantedOpts)
    (names : list string) :
  Forall (fun n =>
      outcome (_read E (path_join E pkgPath n) pkgPath (read_opts opts false))
      = inr absent) names ->
  wanted_loop E pkgPath opts names VNull = Fulfilled VNull.
Proof.
  induction 1 as [|n names Hn _ IH]; [done|].
  cbn [wanted_loop]. rewrite Hn. simpl. apply IH.
Qed.

Lemma autofix_loop_absent (pkgPath : string) (opts : WantedOpts)
    (names : list string) :
  Forall (fun n =>
      outcome (_read E (path_join E pkgPath n) pkgPath (read_opts opts true))
      = inr absent) names ->
  autofix_loop E pkgPath opts names absent = Fulfilled absent.
Proof.
  induction 1 as [|n names Hn _ IH]; [done|].
  cbn [autofix_loop]. rewrite Hn. simpl. apply IH.
Qed.

(** When the plain loop is fulfilled, the conflict-aware loop is fulfilled
    with the same lockfile and no conflicts. *)
Lemma loops_agree (pkgPath : string) (opts : WantedOpts)
    (names : list string) (current v : value) :
  wanted_loop E pkgPath opts names current = Fulfilled v ->
  autofix_loop E pkgPath opts names
    {| lockfile := current; hadConflicts := false |}
  = Fulfilled {| lockfile := v; hadConflicts := false |}.
Proof.
  revert current. induction names as [|n names IH]; intros current.
  - simpl. by intros [= ->].
  - cbn [wanted_loop autofix_loop].
    destruct (outcome (_read E (path_join E pkgPath n) pkgPath
                         (read_opts opts false))) as [e|r] eqn:Hr; [done|].
    destruct (read_autofix_irrelevant _ _ _ _ Hr) as [-> Hc].
    rewrite Hr. simpl. destruct r as [l c]. simpl in *. subst c.
    destruct (truthy l).
    + destruct (mergeGitBranchLockfiles opts).
      * intros ->. reflexivity.
      * by intros [= ->].
    + apply IH.
Qed.

End PublicReads.

(** X6.  The candidate names: without [useGitBranchLockfile] the only
    candidate is the standard name and the branch name is not even asked
    for; otherwise the candidates are at most two, all different, and the
    standard name is the last one; and a failure to get the branch name
    fails the read. *)
Theorem lockfileNames_candidates (E : Read.Collaborators)
    (opts : Read.WantedOpts) :
  (Read.useGitBranchLockfile opts = false ->
   Read.lockfileNames E opts = Read.Fulfilled [Read.WANTED_LOCKFILE E])
  /\ (forall names,
      Read.lockfileNames E opts = Read.Fulfilled names ->
      last names = Some (Read.WANTED_LOCKFILE E)
      /\ NoDup names /\ (length names <= 2)%nat)
  /\ (forall e,
      Read.useGitBranchLockfile opts = true ->
      Read.getWantedLockfileName E opts = inl e ->
      Read.lockfileNames E opts = Read.Rejected [e]).
Proof.
  unfold Read.lockfileNames. repeat split.
  - by intros ->.
  - destruct (Read.useGitBranchLockfile opts);
      [destruct (Read.getWantedLockfileName E opts) as [e|name];
       [done | simpl in H; case_bool_decide] |];
      by injection H as <-.
  - destruct (Read.useGitBranchLockfile opts);
      [destruct (Read.getWantedLockfileName E opts) as [e|name];
       [done | simpl in H; case_bool_decide as Hne] |];
      injection H as <-.
    + apply NoDup_cons. split; [|apply NoDup_singleton].
      by intros ->%list_elem_of_singleton.
    + apply NoDup_singleton.
    + apply NoDup_singleton.
  - destruct (Read.useGitBranchLockfile opts);
      [destruct (Read.getWantedLockfileName E opts) as [e|name];
       [done | simpl in H; case_bool_decide] |];
      injection H as <-; simpl; lia.
  - by intros e -> ->.
Qed.

Lemma lockfileNames_candidates_witness :
  Read.lockfileNames Demo.branched (Demo.wanted_opts true)
  = Read.Fulfilled [Read.WANTED_LOCKFILE Demo.branched].
Proof.
  apply (proj1 (lockfileNames_candidates Demo.branched (Demo.wanted_opts true))).
  reflexivity.
Defined.

(** X7.  When none of the candidate files exists, both public functions
    return the absent lockfile (the conflict-aware one with no conflicts),
    whether or not merging is asked for: the branch lockfiles are not even
    enumerated. *)
Theorem readWantedLockfile_nothing_to_read (E : Read.Collaborators)
    (pkgPath : string) (opts : Read.WantedOpts) (names : list string) :
  Read.lockfileNames E opts = Read.Fulfilled names ->
  (forall n, n ∈ names ->
     exists err, Read.readFile E (Read.path_join E pkgPath n) = inl err
                 /\ error_code err = Some "ENOENT") ->
  Read.readWantedLockfile E pkgPath opts = Read.Fulfilled JS.VNull
  /\ Read.readWantedLockfileAndAutofixConflicts E pkgPath opts
     = Read.Fulfilled {| Read.lockfile := JS.VNull;
                         Read.hadConflicts := false |}.
Proof.
  intros Hnames Hmissing.
  unfold Read.readWantedLockfile, Read.readWantedLockfileAndAutofixConflicts.
  rewrite Hnames. simpl Read.await. split.
  - apply wanted_loop_absent. apply Forall_forall. intros n Hn.
    destruct (Hmissing n Hn) as (err & Hread & Hcode).
    by rewrite (read_missing E _ _ _ _ Hread Hcode).
  - apply autofix_loop_absent. apply Forall_forall. intros n Hn.
    destruct (Hmissing n Hn) as (err & Hread & Hcode).
    by rewrite (read_missing E _ _ _ _ Hread Hcode).
Qed.

Lemma readWantedLockfile_nothing_to_read_witness :
  Read.readWantedLockfile (Demo.collaborators [] [] [] ["pnpm-lock.b1.yaml"])
    "p" (Demo.wanted_opts true) = Read.Fulfilled JS.VNull
  /\ Read.readWantedLockfileAndAutofixConflicts
       (Demo.collaborators [] [] [] ["pnpm-lock.b1.yaml"]) "p"
       (Demo.wanted_opts true)
     = Read.Fulfilled {| Read.lockfile := JS.VNull;
                         Read.hadConflicts := false |}.
Proof.
  apply (readWantedLockfile_nothing_to_read
           (Demo.collaborators [] [] [] ["pnpm-lock.b1.yaml"]) "p"
           (Demo.wanted_opts true) ["pnpm-lock.yaml"] eq_refl).
  intros n Hn. exists (ErrnoException "ENOENT").
  apply list_elem_of_singleton in Hn as ->. split; reflexivity.
Defined.

(** X8.  The candidates are tried in order and the search stops at the
    first one that does not read as absent: if it reads to a lockfile and
    merging is off, [readWantedLockfile] returns that lockfile; if reading
    it throws, [readWantedLockfile] rejects with that error instead of
    going on to the next candidate.  The candidates after it are never
    read. *)
Theorem readWantedLockfile_first_candidate (E : Read.Collaborators)
    (pkgPath : string) (opts : Read.WantedOpts)
    (skipped rest : list string) (name : string) :
  Read.lockfileNames E opts = Read.Fulfilled (skipped ++ name :: rest)%list ->
  Forall (fun n =>
      outcome (Read._read E (Read.path_join E pkgPath n) pkgPath
                 (Read.read_opts opts false))
      = inr {| Read.lockfile := JS.VNull; Read.hadConflicts := false |})
    skipped ->
  (forall found,
     outcome (Read._read E (Read.path_join E pkgPath name) pkgPath
                (Read.read_opts opts false)) = inr found ->
     JS.truthy (Read.lockfile found) = true ->
     Read.mergeGitBranchLockfiles opts = false ->
     Read.readWantedLockfile E pkgPath opts
     = Read.Fulfilled (Read.lockfile found))
  /\ (forall e,
      outcome (Read._read E (Read.path_join E pkgPath name) pkgPath
                 (Read.read_opts opts false)) = inl e ->
      Read.readWantedLockfile E pkgPath opts = Read.Rejected [e]).
Proof.
  intros Hnames Hskipped. unfold Read.readWantedLockfile.
  rewrite Hnames. simpl Read.await.
  rewrite (wanted_loop_found E pkgPath opts skipped rest name JS.VNull Hskipped).
  split.
  - intros found -> Ht Hoff. simpl. by rewrite Ht, Hoff.
  - by intros e ->.
Qed.

Lemma readWantedLockfile_first_candidate_witness :
  Read.readWantedLockfile Demo.conflicted "p" (Demo.wanted_opts false)
  = Read.Rejected
      [Read.broken_lockfile "p/pnpm-lock.yaml" "unexpected end of the stream"]
  /\ Read.readWantedLockfile Demo.branched "p" (Demo.wanted_opts false)
     = Read.Fulfilled (JS.VObj Demo.base_lockfile).
Proof.
  split.
  - apply (proj2 (readWantedLockfile_first_candidate Demo.conflicted "p"
                    (Demo.wanted_opts false) [] [] "pnpm-lock.yaml"
                    eq_refl (Forall_nil_2 _))).
    reflexivity.
  - apply (proj1 (readWantedLockfile_first_candidate Demo.branched "p"
                    (Demo.wanted_opts false) [] [] "pnpm-lock.yaml"
                    eq_refl (Forall_nil_2 _))
             {| Read.lockfile := JS.VObj Demo.base_lockfile;
                Read.hadConflicts := false |});
      [vm_compute; reflexivity | reflexivity | reflexivity].
Defined.

(** X9.  The two public functions agree: whenever [readWantedLockfile]
    is fulfilled with a lockfile (or the absent one), the conflict-aware
    variant run on the same directory and options is fulfilled with that
    same lockfile and [hadConflicts = false]. *)
Theorem readWantedLockfile_variants_agree (E : Read.Collaborators)
    (pkgPath : string) (opts : Read.WantedOpts) (v : JS.value) :
  Read.readWantedLockfile E pkgPath opts = Read.Fulfilled v ->
  Read.readWantedLockfileAndAutofixConflicts E pkgPath opts
  = Read.Fulfilled {| Read.lockfile := v; Read.hadConflicts := false |}.
Proof.
  unfold Read.readWantedLockfile, Read.readWantedLockfileAndAutofixConflicts.
  destruct (Read.lockfileNames E opts) as [names|rs]; [|done].
  simpl Read.await. apply loops_agree.
Qed.

Lemma readWantedLockfile_variants_agree_witness :
  Read.readWantedLockfileAndAutofixConflicts Demo.branched "p"
    (Demo.wanted_opts false)
  = Read.Fulfilled {| Read.lockfile := JS.VObj Demo.base_lockfile;
                      Read.hadConflicts := false |}.
Proof.
  apply (readWantedLockfile_variants_agree Demo.branched "p"
           (Demo.wanted_opts false) (JS.VObj Demo.base_lockfile)).
  vm_compute. reflexivity.
Defined.

(** X10.  [readCurrentLockfile] reads [lock.yaml] of the store directory
    with auto-fix off: a missing file gives the absent lockfile and no log,
    and a text that does not parse gives [BROKEN_LOCKFILE] even when it
    carries conflict markers. *)
Theorem readCurrentLockfile_edges (E : Read.Collaborators)
    (virtualStoreDir : string) (wanted : option string) (ignore : bool) :
  (forall err,
     Read.readFile E (Read.path_join E virtualStoreDir "lock.yaml") = inl err ->
     error_code err = Some "ENOENT" ->
     Read.readCurrentLockfile E virtualStoreDir wanted ignore
     = ([], inr JS.VNull))
  /\ (forall content message,
      Read.readFile E (Read.path_join E virtualStoreDir "lock.yaml")
      = inr content ->
      Read.yaml_load E (Read.stripBom E content) = inl message ->
      Read.readCurrentLockfile E virtualStoreDir wanted ignore
      = ([], inl (Read.broken_lockfile
                    (Read.path_join E virtualStoreDir "lock.yaml") message))).
Proof.
  unfold Read.readCurrentLockfile. split.
  - intros err Hread Hcode.
    by rewrite (read_missing E _ _ _ _ Hread Hcode), bind_ret.
  - intros content message Hread Hparse.
    by rewrite (read_broken E _ _ _ content message Hread Hparse).
Qed.

Lemma readCurrentLockfile_edges_witness :
  Read.readCurrentLockfile Demo.conflicted "q" None false = ([], inr JS.VNull)
  /\ Read.readCurrentLockfile
       (Demo.collaborators [("q/lock.yaml", inr "<<<<<<< HEAD")] []
          [("<<<<<<< HEAD", Demo.with_version "5.4")] [])
       "q" None false
     = ([], inl (Read.broken_lockfile "q/lock.yaml"
                   "unexpected end of the stream")).
Proof.
  split.
  - apply (proj1 (readCurrentLockfile_edges Demo.conflicted "q" None false)
             (ErrnoException "ENOENT")); reflexivity.
  - apply (proj2 (readCurrentLockfile_edges
             (Demo.collaborators [("q/lock.yaml", inr "<<<<<<< HEAD")] []
                [("<<<<<<< HEAD", Demo.with_version "5.4")] [])
             "q" None false) "<<<<<<< HEAD"); reflexivity.
Defined.

(** ** The merge keeps every package *)
Section MergeKeys.
Import JS Read.

Lemma merge_fold_keys (branches : list value) (o o' : gmap string value)
    (key : string) :
  fold_left merge_packages branches (inr (VObj o)) = inr (VObj o') ->
  is_Some (packages_of (VObj o') !! key)
  <-> is_Some (packages_of (VObj o) !! key)
      \/ exists b, b ∈ branches /\ truthy (get b "packages") = true
                   /\ is_Some (packages_of b !! key).
Proof.
  revert o. induction branches as [|b branches IH]; intros o.
  - cbn [fold_left]. intros [= ->]. split; [by left|].
    intros [H|(b & Hb & _)]; [done|]. by apply elem_of_nil in Hb.
  - cbn [fold_left]. rewrite merge_packages_obj. intros Hfold.
    rewrite (IH _ Hfold). clear IH Hfold.
    destruct (truthy (get b "packages")) eqn:Hb.
    + simpl. rewrite lookup_insert_eq. simpl.
      rewrite lookup_union_is_Some. split.
      * intros [[H|H]|(b' & Hb' & Ht & H)].
        -- right. exists b. split; [by left|done].
        -- by left.
        -- right. exists b'. split; [by right|done].
      * intros [H|(b' & Hb' & Ht & H)]; [left; by right|].
        apply elem_of_cons in Hb' as [->|Hb'].
        -- left. by left.
        -- right. by exists b'.
    + split.
      * intros [H|(b' & Hb' & Ht & H)]; [by left|].
        right. exists b'. split; [by right|done].
      * intros [H|(b' & Hb' & Ht & H)]; [by left|].
        apply elem_of_cons in Hb' as [->|Hb']; [congruence|].
        right. by exists b'.
Qed.

End MergeKeys.

(** X11.  The branch merge neither drops nor invents a package: when every
    branch lockfile is read, a key is in the merged [packages] exactly when
    it is in the base's [packages] or in the [packages] of some branch
    lockfile. *)
Theorem merge_keeps_every_package (E : Read.Collaborators)
    (lockfileDir prefix : string) (opts : Read.ReadOpts)
    (base : gmap string JS.value) (files : list string)
    (results : list Read.ReadResult) :
  Read.getGitBranchLockfileNames E lockfileDir = inr files ->
  Forall2 (fun file r =>
      outcome (Read._read E (Read.path_join E lockfileDir file) prefix opts)
      = inr r) files results ->
  exists merged : gmap string JS.value,
    Read._mergeGitBranchLockfiles E (JS.VObj base) lockfileDir prefix opts
    = Read.Fulfilled (JS.VObj merged)
    /\ forall key,
       is_Some (JS.own_props (JS.get (JS.VObj merged) "packages") !! key)
       <-> is_Some (JS.own_props (JS.get (JS.VObj base) "packages") !! key)
           \/ exists r, r ∈ results
                /\ JS.truthy (JS.get (Read.lockfile r) "packages") = true
                /\ is_Some (JS.own_props (JS.get (Read.lockfile r) "packages")
                            !! key).
Proof.
  intros Hnames Hreads.
  destruct (merge_fold_obj (map Read.lockfile results) base)
    as (merged & Hfold & _).
  exists merged. split.
  - unfold Read._mergeGitBranchLockfiles, Read._readGitBranchLockfiles.
    simpl. rewrite Hnames. simpl.
    rewrite (Promise_all_fulfilled _ results) by (by apply Forall2_fmap_l).
    simpl. by rewrite Hfold.
  - intros key. rewrite (merge_fold_keys _ _ _ key Hfold). split.
    + intros [H|(b & Hb & Ht & H)]; [by left|].
      apply list_elem_of_fmap in Hb as (r & -> & Hr). right. by exists r.
    + intros [H|(r & Hr & Ht & H)]; [by left|].
      right. exists (Read.lockfile r). split; [|done].
      apply list_elem_of_fmap. by exists r.
Qed.

Lemma merge_keeps_every_package_witness :
  exists merged : gmap string JS.value,
    Read._mergeGitBranchLockfiles Demo.branched (JS.VObj Demo.base_lockfile)
      "p" "p" (Demo.opts false (Some "5.4") false)
    = Read.Fulfilled (JS.VObj merged)
    /\ is_Some (JS.own_props (JS.get (JS.VObj merged) "packages") !! "A").
Proof.
  destruct (merge_keeps_every_package Demo.branched "p" "p"
              (Demo.opts false (Some "5.4") false) Demo.base_lockfile
              ["pnpm-lock.b1.yaml"; "pnpm-lock.b2.yaml"]
              [ {| Read.lockfile :=
                     Read.migrate (Demo.with_packages [("B", JS.VStr "v1")]);
                   Read.hadConflicts := false |};
                {| Read.lockfile :=
                     Read.migrate (Demo.with_packages [("A", JS.VStr "v2")]);
                   Read.hadConflicts := false |} ]
              eq_refl)
    as (merged & Hmerged & Hkeys).
  { repeat constructor. }
  exists merged. split; [exact Hmerged|].
  apply Hkeys. left. vm_compute. eauto.
Defined.

(** ** A fresh lockfile *)
Section Fresh.
Import JS Read.

Lemma add_importers_lookup (importerIds : list string)
    (acc : gmap string value) (id : string) :
  fold_left add_importer importerIds acc !! id
  = if bool_decide (id ∈ importerIds /\ id <> "__proto__")
    then Some empty_importer else acc !! id.
Proof.
  revert acc. induction importerIds as [|i ids IH]; intros acc.
  - cbn [fold_left]. rewrite bool_decide_eq_false_2; [done|].
    intros [H _]. by apply elem_of_nil in H.
  - cbn [fold_left]. rewrite IH. unfold add_importer.
    destruct (String.eqb_spec i "__proto__") as [->|Hi].
    + rewrite (bool_decide_ext (id ∈ "__proto__" :: ids /\ id <> "__proto__")
                 (id ∈ ids /\ id <> "__proto__")); [done|].
      rewrite elem_of_cons. naive_solver.
    + case_bool_decide as H1; case_bool_decide as H2; try done.
      * exfalso. apply H2. rewrite elem_of_cons. naive_solver.
      * rewrite elem_of_cons in H2. destruct H2 as [[->|H2] Hx];
          [by rewrite lookup_insert_eq | naive_solver].
      * rewrite lookup_insert_ne; [done|].
        intros ->. apply H2. rewrite elem_of_cons. naive_solver.
Qed.

End Fresh.

(** X12.  [createLockfileObject] returns an object with just [importers]
    and [lockfileVersion]: every given importer id (the id [__proto__]
    apart, which creates no property) has an importer with empty
    [dependencies] and [specifiers] and nothing else, no other id has one,
    however often an id is given; the version is the one given unless that
    is [0] or [NaN], which give the default; and the object is in the
    current shape, the migration leaves it alone. *)
Theorem createLockfileObject_fresh (LOCKFILE_VERSION : JS.value)
    (importerIds : list string) (lockfileVersion : string) :
  exists importers : gmap string JS.value,
    JS.get (Read.createLockfileObject LOCKFILE_VERSION importerIds
              lockfileVersion) "importers" = JS.VObj importers
    /\ (forall id,
        importers !! id
        = if bool_decide (id ∈ importerIds /\ id <> "__proto__")
          then Some Read.empty_importer else None)
    /\ JS.get (Read.createLockfileObject LOCKFILE_VERSION importerIds
                 lockfileVersion) "lockfileVersion"
       = (if bool_decide (lockfileVersion = "0" \/ lockfileVersion = "NaN")
          then LOCKFILE_VERSION else JS.VNum lockfileVersion)
    /\ (forall k, k <> "importers" -> k <> "lockfileVersion" ->
        JS.get (Read.createLockfileObject LOCKFILE_VERSION importerIds
                  lockfileVersion) k = JS.VUndef)
    /\ Read.migrate (Read.createLockfileObject LOCKFILE_VERSION importerIds
                       lockfileVersion)
       = Read.createLockfileObject LOCKFILE_VERSION importerIds
           lockfileVersion.
Proof.
  exists (fold_left Read.add_importer importerIds ∅).
  unfold Read.createLockfileObject. split; [|split; [|split; [|split]]].
  - simpl. rewrite lookup_insert_ne by done. by rewrite lookup_insert_eq.
  - intros id. rewrite add_importers_lookup.
    by rewrite lookup_empty.
  - simpl. rewrite lookup_insert_eq. simpl.
    destruct (String.eqb_spec lockfileVersion "0") as [->|H0].
    { by rewrite bool_decide_eq_true_2 by (by left). }
    destruct (String.eqb_spec lockfileVersion "NaN") as [->|Hn].
    { by rewrite bool_decide_eq_true_2 by (by right). }
    simpl. rewrite bool_decide_eq_false_2; [done|]. by intros [?|?].
  - intros k Hi Hv. simpl. by rewrite !lookup_insert_ne, lookup_empty.
  - apply migrate_noop. simpl. by rewrite !lookup_insert_ne, lookup_empty.
Qed.

(** ** The import command, whole *)

(** Outside a workspace: the lockfile is removed, the npm lock is walked,
    the store is connected, the manifest read, and [install] gets the
    preferred versions. *)
Example import_single_project :
  ImportHandler.handler
    (ImportDemo.directory None (Some ImportDemo.lodash_lock) None)
    (ImportDemo.world []) (ImportDemo.import_opts None) []
  = ([ImportHandler.Rimraf "p/pnpm-lock.yaml";
      ImportHandler.Extract ImportCommand.NpmExtraction;
      ImportHandler.CreateStore;
      ImportHandler.ReadManifest "p";
      ImportHandler.Install tt
        (list_to_map
           [("lodash", list_to_map [("4.17.0", "version")]);
            ("debug", list_to_map [("1.0.0", "version")])]) tt],
     inr tt).
Proof. vm_compute. reflexivity. Qed.

(** In a workspace of which the directory is a project. *)
Example import_in_workspace :
  ImportHandler.handler
    (ImportDemo.directory None (Some ImportDemo.lodash_lock) None)
    (ImportDemo.world ["q"; "p"]) (ImportDemo.import_opts (Some "w")) []
  = ([ImportHandler.Rimraf "p/pnpm-lock.yaml";
      ImportHandler.Extract ImportCommand.NpmExtraction;
      ImportHandler.FindWorkspacePackages "w";
      ImportHandler.Recursive ["q"; "p"] [] (<["p" := ([], "p")]> ∅)
        (list_to_map
           [("lodash", list_to_map [("4.17.0", "version")]);
            ("debug", list_to_map [("1.0.0", "version")])]) "w"],
     inr tt).
Proof. vm_compute. reflexivity. Qed.

Section WholeHandler.
Import ImportCommand ImportHandler.
Context {Project Manifest Store : Type}.
Context (E : Collaborators) (W : @World Project Manifest Store).

Lemma extract_installs_nothing (xs : list extraction) :
  omap (@installs Project Manifest Store) (map Extract xs) = [].
Proof. by induction xs. Qed.

Lemma extract_not_single (xs : list extraction) :
  forallb (fun ev => negb (@single_project_call Project Manifest Store ev))
    (map Extract xs) = true.
Proof. by induction xs. Qed.

(** What the two ways of installing hand over. *)
Lemma import_project_installs (opts : ImportCommandOptions)
    (pv : gmap string (gmap string string)) :
  omap installs (fst (import_project W opts pv)) = []
  \/ omap installs (fst (import_project W opts pv)) = [pv].
Proof.
  unfold import_project, then_, call, run.
  destruct (createOrConnectStoreController W) as [e|store]; [by left|].
  destruct (readProjectManifestOnly W (dir opts)) as [e|manifest];
    [by left|].
  right. reflexivity.
Qed.

Lemma import_workspace_installs (opts : ImportCommandOptions)
    (params : list string) (workspace : string)
    (pv : gmap string (gmap string string)) :
  (omap installs (fst (import_workspace W opts params workspace pv)) = []
   \/ omap installs (fst (import_workspace W opts params workspace pv)) = [pv])
  /\ forallb (fun ev => negb (single_project_call ev))
       (fst (import_workspace W opts params workspace pv)) = true.
Proof.
  unfold import_workspace, then_, call, run, done_.
  destruct (allProjects opts) as [projects|];
    [|destruct (findWorkspacePackages W workspace) as [e|projects];
      [by split; [left|]|]];
    (destruct (selectedProjectsGraph opts) as [graph|];
     [|destruct (selectProjectByDir W projects (dir opts)) as [graph|];
       [|by split; [left|]]]);
    destruct (sequenceGraph W graph) as [[] cycles]; simpl;
    by split; [right|].
Qed.

Lemma find_none_of {A} (f : A -> bool) (l : list A) :
  Forall (fun x => f x = false) l -> find f l = None.
Proof. induction 1 as [|x l Hx _ IH]; [done|]. simpl. by rewrite Hx. Qed.

(** X13.  The handler removes the pnpm lockfile of the directory before
    anything else: if that fails nothing else is attempted; and when no
    foreign lockfile exists the command fails with [LOCKFILE_NOT_FOUND]
    after the removal, having called nothing else. *)
Theorem handler_removes_lockfile_first (opts : ImportCommandOptions)
    (params : list string) :
  (exists rest,
     fst (handler E W opts params)
     = Rimraf (path_join E (dir opts) (WANTED_LOCKFILE W)) :: rest)
  /\ (forall e,
      rimraf W (path_join E (dir opts) (WANTED_LOCKFILE W)) = Some e ->
      handler E W opts params
      = ([Rimraf (path_join E (dir opts) (WANTED_LOCKFILE W))], inl e))
  /\ (rimraf W (path_join E (dir opts) (WANTED_LOCKFILE W)) = None ->
      exists_ E (path_join E (dir opts) "yarn.lock") = false ->
      exists_ E (path_join E (dir opts) "package-lock.json") = false ->
      exists_ E (path_join E (dir opts) "npm-shrinkwrap.json") = false ->
      handler E W opts params
      = ([Rimraf (path_join E (dir opts) (WANTED_LOCKFILE W))],
         inl (PnpmError "LOCKFILE_NOT_FOUND" "No lockfile found"))).
Proof.
  unfold handler, then_, run. split; [|split].
  - destruct (rimraf W _) as [e|]; [by eexists|].
    destruct (handler_preferredVersions E (dir opts)) as [xs [e|pv]];
      cbn [fst snd]; [by eexists|].
    destruct (match workspaceDir opts with Some _ => _ | None => _ end).
    by eexists.
  - by intros e ->.
  - intros -> Hy Hp Hs. unfold handler_preferredVersions.
    by rewrite Hy, Hp, Hs.
Qed.

(** X14.  The handler installs at most once, and only what it extracted:
    among its calls there is at most one call of [recursive] or [install],
    made only after the lockfile was removed and the extraction succeeded,
    and given exactly the preferred versions extracted; and in a workspace
    (a non-empty [workspaceDir]) it never connects to the store, reads the
    manifest or calls [install] itself. *)
Theorem handler_installs_once (opts : ImportCommandOptions)
    (params : list string) :
  (omap installs (fst (handler E W opts params)) = []
   \/ exists pv,
        omap installs (fst (handler E W opts params)) = [pv]
        /\ rimraf W (path_join E (dir opts) (WANTED_LOCKFILE W)) = None
        /\ snd (handler_preferredVersions E (dir opts)) = inr pv)
  /\ (forall workspace,
      workspaceDir opts = Some workspace -> workspace <> "" ->
      forallb (fun ev => negb (single_project_call ev))
        (fst (handler E W opts params)) = true).
Proof.
  unfold handler, then_, run.
  destruct (rimraf W _) as [e|] eqn:Hrm.
  { split; [by left|]. by intros. }
  destruct (handler_preferredVersions E (dir opts)) as [xs [e|pv]] eqn:Hx;
    cbn [fst snd].
  { split; [left|intros]; simpl.
    - apply extract_installs_nothing.
    - apply extract_not_single. }
  assert (Htail : exists l r,
    match workspaceDir opts with
    | Some workspace =>
        if String.eqb workspace "" then import_project W opts pv
        else import_workspace W opts params workspace pv
    | None => import_project W opts pv
    end = (l, r)) by (destruct (match workspaceDir opts with
                                | Some _ => _ | None => _ end); eauto).
  destruct Htail as (l & r & Hrest). rewrite Hrest.
  cbn [fst app].
  change (omap installs (Rimraf (path_join E (dir opts) (WANTED_LOCKFILE W))
                         :: (map Extract xs ++ l)%list))
    with (omap installs (map Extract xs ++ l)%list).
  rewrite omap_app, extract_installs_nothing, app_nil_l. split.
  - assert (Hl : omap installs l = [] \/ omap installs l = [pv]).
    { replace l with (fst (l, r)) by done. rewrite <- Hrest.
      destruct (workspaceDir opts) as [workspace|];
        [destruct (String.eqb workspace "")|];
        first [apply import_project_installs
              | apply import_workspace_installs]. }
    destruct Hl as [->| ->]; [by left|]. right. by exists pv.
  - intros workspace Hw Hne. rewrite Hw in Hrest.
    apply String.eqb_neq in Hne. rewrite Hne in Hrest.
    cbn [forallb single_project_call negb andb].
    rewrite forallb_app, extract_not_single. simpl.
    replace l with (fst (l, r)) by done. rewrite <- Hrest.
    apply import_workspace_installs.
Qed.

(** X15.  In a workspace, when no projects graph is given and no project
    of the workspace is the directory, the command completes without
    calling [recursive] or [install]: it has removed the lockfile and
    extracted the preferred versions, and installs nothing. *)
Theorem handler_workspace_without_project (opts : ImportCommandOptions)
    (params : list string) (workspace : string) (projects : list Project)
    (pv : gmap string (gmap string string)) :
  workspaceDir opts = Some workspace -> workspace <> "" ->
  selectedProjectsGraph opts = None ->
  allProjects opts = Some projects
  \/ (allProjects opts = None
      /\ findWorkspacePackages W workspace = inr projects) ->
  Forall (fun p => path_relative W (project_dir W p) (dir opts) <> "")
    projects ->
  rimraf W (path_join E (dir opts) (WANTED_LOCKFILE W)) = None ->
  snd (handler_preferredVersions E (dir opts)) = inr pv ->
  snd (handler E W opts params) = inr tt
  /\ omap installs (fst (handler E W opts params)) = [].
Proof.
  intros Hw Hne Hgraph Hprojects Hnone Hrm Hpv.
  assert (Hfind : selectProjectByDir W projects (dir opts) = None).
  { unfold selectProjectByDir. rewrite find_none_of; [done|].
    eapply Forall_impl; [exact Hnone|]. intros p Hp. by apply String.eqb_neq. }
  unfold handler, then_, run. rewrite Hrm.
  destruct (handler_preferredVersions E (dir opts)) as [xs r].
  simpl in Hpv. subst r. cbn [fst snd]. rewrite Hw.
  apply String.eqb_neq in Hne. rewrite Hne.
  unfold import_workspace, then_, call, done_. rewrite Hgraph.
  destruct Hprojects as [-> | [-> ->]]; rewrite Hfind; cbn [fst snd app];
    (split; [done|]);
    match goal with
    | |- omap installs (_ :: ?t) = [] => change (omap installs t = [])
    end;
    by rewrite omap_app, extract_installs_nothing.
Qed.

End WholeHandler.

Lemma handler_removes_lockfile_first_witness :
  ImportHandler.handler (ImportDemo.directory None None None)
    (ImportDemo.world ["p"]) (ImportDemo.import_opts None) []
  = ([ImportHandler.Rimraf "p/pnpm-lock.yaml"],
     inl (PnpmError "LOCKFILE_NOT_FOUND" "No lockfile found")).
Proof.
  apply (proj2 (proj2 (handler_removes_lockfile_first
           (ImportDemo.directory None None None) (ImportDemo.world ["p"])
           (ImportDemo.import_opts None) []))); reflexivity.
Defined.

Lemma handler_installs_once_witness :
  forallb (fun ev => negb (ImportHandler.single_project_call ev))
    (fst (ImportHandler.handler
            (ImportDemo.directory None (Some ImportDemo.lodash_lock) None)
            (ImportDemo.world ["q"; "p"]) (ImportDemo.import_opts (Some "w"))
            [])) = true.
Proof.
  apply (proj2 (handler_installs_once
           (ImportDemo.directory None (Some ImportDemo.lodash_lock) None)
           (ImportDemo.world ["q"; "p"]) (ImportDemo.import_opts (Some "w"))
           []) "w"); [reflexivity|discriminate].
Defined.

Lemma handler_workspace_without_project_witness :
  snd (ImportHandler.handler
         (ImportDemo.directory None (Some ImportDemo.lodash_lock) None)
         (ImportDemo.world ["q"; "r"]) (ImportDemo.import_opts (Some "w")) [])
  = inr tt
  /\ omap ImportHandler.installs
       (fst (ImportHandler.handler
               (ImportDemo.directory None (Some ImportDemo.lodash_lock) None)
               (ImportDemo.world ["q"; "r"])
               (ImportDemo.import_opts (Some "w")) [])) = [].
Proof.
  apply (handler_workspace_without_project
           (ImportDemo.directory None (Some ImportDemo.lodash_lock) None)
           (ImportDemo.world ["q"; "r"]) (ImportDemo.import_opts (Some "w"))
           [] "w" ["q"; "r"]
           (list_to_map
              [("lodash", list_to_map [("4.17.0", "version")]);
               ("debug", list_to_map [("1.0.0", "version")])]));
    try reflexivity; try discriminate.
  - right. split; reflexivity.
  - repeat constructor; discriminate.
Defined.

(** ** Reading the foreign lockfiles *)

(** X16.  [readYarnLockFile]: a [yarn.lock] that is not there at read time
    gives [YARN_LOCKFILE_NOT_FOUND]; any other read error is thrown as it
    is; a parse with the type [success] gives the parsed object, and one
    with any other type gives [GET_YARN_LOCKFILE_ERR] naming the type; an
    error thrown by the parser is thrown as it is, unless its code is
    [ENOENT], which also becomes [YARN_LOCKFILE_NOT_FOUND]. *)
Theorem readYarnLockFile_outcomes (E : ImportCommand.Collaborators)
    (dir : string) :
  (forall err,
     ImportCommand.gfs_readFile E (ImportCommand.path_join E dir "yarn.lock")
     = inl err ->
     ImportCommand.readYarnLockFile E dir
     = inl (if bool_decide (error_code err = Some "ENOENT")
            then PnpmError "YARN_LOCKFILE_NOT_FOUND" "No yarn.lock found"
            else err))
  /\ (forall content,
      ImportCommand.gfs_readFile E (ImportCommand.path_join E dir "yarn.lock")
      = inr content ->
      (forall object,
         ImportCommand.parseYarnLock E content = inr ("success", object) ->
         ImportCommand.readYarnLockFile E dir = inr object)
      /\ (forall type object,
          ImportCommand.parseYarnLock E content = inr (type, object) ->
          type <> "success" ->
          ImportCommand.readYarnLockFile E dir
          = inl (PnpmError "GET_YARN_LOCKFILE_ERR" ("Failed With " ++ type)))
      /\ (forall err,
          ImportCommand.parseYarnLock E content = inl err ->
          ImportCommand.readYarnLockFile E dir
          = inl (if bool_decide (error_code err = Some "ENOENT")
                 then PnpmError "YARN_LOCKFILE_NOT_FOUND" "No yarn.lock found"
                 else err))).
Proof.
  unfold ImportCommand.readYarnLockFile, ImportCommand.code_is_ENOENT. split.
  - intros err ->. by case_bool_decide.
  - intros content ->. repeat split.
    + by intros object ->.
    + intros type object -> Hne. apply String.eqb_neq in Hne.
      rewrite Hne. reflexivity.
    + intros err ->. by case_bool_decide.
Qed.

Lemma readYarnLockFile_outcomes_witness :
  ImportCommand.readYarnLockFile (ImportDemo.directory None None None) "p"
  = inl (PnpmError "YARN_LOCKFILE_NOT_FOUND" "No yarn.lock found")
  /\ ImportCommand.readYarnLockFile
       (ImportDemo.directory (Some [("a@1", ImportDemo.entry "1.0.0")]) None
          None) "p"
     = inr [("a@1", ImportDemo.entry "1.0.0")].
Proof.
  split.
  - apply (proj1 (readYarnLockFile_outcomes
             (ImportDemo.directory None None None) "p")
             (ErrnoException "ENOENT")). reflexivity.
  - apply (proj1 (proj2 (readYarnLockFile_outcomes
             (ImportDemo.directory (Some [("a@1", ImportDemo.entry "1.0.0")])
                None None) "p") "yarn" eq_refl)). reflexivity.
Defined.

(** X17.  [readNpmLockfile]: a [package-lock.json] that loads is used and
    [npm-shrinkwrap.json] is not looked at; a load error other than
    [ENOENT] is thrown as it is, without falling back; only when
    [package-lock.json] is not there is [npm-shrinkwrap.json] loaded, with
    the same treatment, both missing giving [NPM_LOCKFILE_NOT_FOUND]. *)
Theorem readNpmLockfile_outcomes (E : ImportCommand.Collaborators)
    (dir : string) :
  (forall lock,
     ImportCommand.loadJsonFile E
       (ImportCommand.path_join E dir "package-lock.json") = inr lock ->
     ImportCommand.readNpmLockfile E dir = inr lock)
  /\ (forall err,
      ImportCommand.loadJsonFile E
        (ImportCommand.path_join E dir "package-lock.json") = inl err ->
      error_code err <> Some "ENOENT" ->
      ImportCommand.readNpmLockfile E dir = inl err)
  /\ (forall err,
      ImportCommand.loadJsonFile E
        (ImportCommand.path_join E dir "package-lock.json") = inl err ->
      error_code err = Some "ENOENT" ->
      ImportCommand.readNpmLockfile E dir
      = match ImportCommand.loadJsonFile E
                (ImportCommand.path_join E dir "npm-shrinkwrap.json") with
        | inr lock => inr lock
        | inl err' =>
            inl (if bool_decide (error_code err' = Some "ENOENT")
                 then PnpmError "NPM_LOCKFILE_NOT_FOUND"
                        "No package-lock.json or npm-shrinkwrap.json found"
                 else err')
        end).
Proof.
  unfold ImportCommand.readNpmLockfile, ImportCommand.code_is_ENOENT.
  repeat split.
  - by intros lock ->.
  - intros err -> Hne. by rewrite bool_decide_eq_false_2.
  - intros err -> Hcode. rewrite bool_decide_eq_true_2 by done.
    destruct (ImportCommand.loadJsonFile E _) as [err'|lock]; [|done].
    by case_bool_decide.
Qed.

Lemma readNpmLockfile_outcomes_witness :
  ImportCommand.readNpmLockfile
    (ImportDemo.directory None (Some ImportDemo.lodash_lock)
       (Some ImportDemo.constructor_lock)) "p"
  = inr ImportDemo.lodash_lock
  /\ ImportCommand.readNpmLockfile
       (ImportDemo.directory None None (Some ImportDemo.constructor_lock)) "p"
     = inr ImportDemo.constructor_lock.
Proof.
  split.
  - apply (proj1 (readNpmLockfile_outcomes
             (ImportDemo.directory None (Some ImportDemo.lodash_lock)
                (Some ImportDemo.constructor_lock)) "p")). reflexivity.
  - apply (proj2 (proj2 (readNpmLockfile_outcomes
             (ImportDemo.directory None None
                (Some ImportDemo.constructor_lock)) "p"))
             (ErrnoException "ENOENT")); reflexivity.
Defined.

(** ** The name of a yarn key, the preferred versions *)

(** X18.  The name taken from a yarn key is the text before its last [@]:
    [name] for a key [name@range] whose range has no [@] (a scoped name
    keeps its leading [@]); and the empty name for a key with no [@] at
    all, [lastIndexOf] being -1 and [substring(0, -1)] empty. *)
Theorem pkgName_before_last_at :
  (forall name range,
     ImportCommand.contains_at range = false ->
     ImportCommand.pkgName (name ++ String "@" range) = name)
  /\ (forall key,
      ImportCommand.contains_at key = false ->
      ImportCommand.pkgName key = "").
Proof.
  split.
  - apply pkgName_key.
  - intros key Hkey.
    unfold ImportCommand.pkgName, ImportCommand.lastIndexOf_at,
      ImportCommand.substring.
    rewrite lastIndexOf_without_at by done.
    replace (Z.min (Z.max 0 (Z.min 0 (Z.of_nat (String.length key))))
               (Z.max 0 (Z.min (-1) (Z.of_nat (String.length key)))))
      with 0%Z by lia.
    replace (Z.max (Z.max 0 (Z.min 0 (Z.of_nat (String.length key))))
               (Z.max 0 (Z.min (-1) (Z.of_nat (String.length key)))))
      with 0%Z by lia.
    simpl. by destruct key.
Qed.

Lemma pkgName_before_last_at_witness :
  ImportCommand.pkgName ("@babel/core" ++ String "@" "^7.0.0") = "@babel/core"
  /\ ImportCommand.pkgName "lodash" = "".
Proof.
  split.
  - apply (proj1 pkgName_before_last_at). reflexivity.
  - apply (proj2 pkgName_before_last_at). reflexivity.
Defined.

(** X19.  [getPreferredVersions] on any index: a name has preferred
    versions exactly when it is a key of the index other than [__proto__],
    and they map each version of its set, the version [__proto__] apart,
    to the tag ["version"] and hold nothing else; no other value is ever
    written. *)
Theorem getPreferredVersions_tags (index : gmap string (list string)) :
  (forall name,
     ImportCommand.getPreferredVersions index !! name
     = if String.eqb name "__proto__" then None
       else (fun versions => fold_left ImportCommand.tag_version versions ∅)
              <$> index !! name)
  /\ (forall versions x,
      fold_left ImportCommand.tag_version versions ∅ !! x
      = if bool_decide (x ∈ versions /\ x <> "__proto__")
        then Some "version" else None)
  /\ (forall name tags x t,
      ImportCommand.getPreferredVersions index !! name = Some tags ->
      tags !! x = Some t -> t = "version").
Proof.
  assert (Hname : forall name,
    ImportCommand.getPreferredVersions index !! name
    = if String.eqb name "__proto__" then None
      else (fun versions => fold_left ImportCommand.tag_version versions ∅)
             <$> index !! name).
  { intros name. unfold ImportCommand.getPreferredVersions.
    rewrite map_lookup_imap.
    destruct (index !! name); simpl; by destruct (String.eqb name "__proto__"). }
  assert (Htags : forall versions x,
    fold_left ImportCommand.tag_version versions ∅ !! x
    = if bool_decide (x ∈ versions /\ x <> "__proto__")
      then Some "version" else None).
  { intros versions x. rewrite tag_fold_lookup.
    case_bool_decide; [done | apply lookup_empty]. }
  split; [done|]. split; [done|].
  intros name tags x t Hn Hx. rewrite Hname in Hn.
  destruct (String.eqb name "__proto__"); [done|].
  destruct (index !! name) as [versions|]; [|done].
  injection Hn as <-. rewrite Htags in Hx. case_bool_decide; congruence.
Qed.

Lemma getPreferredVersions_tags_witness :
  "version" = "version".
Proof.
  apply (proj2 (proj2 (getPreferredVersions_tags
           (<["lodash" := ["4.17.0"; "4.17.21"]]> ∅)))
           "lodash" (list_to_map [("4.17.0", "version"); ("4.17.21", "version")])
           "4.17.21" "version"); reflexivity.
Defined.

(** ** The extractions, end to end *)
Section Extractions.
Import ImportCommand.

(** No set of the index is empty: a set is created to receive a version. *)
Lemma record_all_nonempty (pairs : list (string * string))
    (acc acc' : gmap string (list string)) :
  record_all pairs acc = inr acc' ->
  (forall n versions, acc !! n = Some versions -> versions <> []) ->
  forall n versions, acc' !! n = Some versions -> versions <> [].
Proof.
  revert acc. induction pairs as [|[name v] pairs IH]; intros acc.
  - cbn. by intros [= ->].
  - rewrite record_all_cons. simpl.
    destruct (record_version name v acc) as [e|acc1] eqn:Hrec; [done|].
    intros Hall Hne. apply (IH acc1 Hall). clear IH Hall.
    unfold record_version in Hrec. intros n versions.
    destruct (acc !! name) as [old|] eqn:Hold.
    + injection Hrec as <-. destruct (decide (n = name)) as [->|Hn].
      * rewrite lookup_insert_eq. intros [= <-]. unfold Set_add.
        case_bool_decide; [by apply (Hne name)|]. by destruct old.
      * rewrite lookup_insert_ne by done. apply Hne.
    + destruct (JS.inherited name); [done|]. injection Hrec as <-.
      destruct (decide (n = name)) as [->|Hn].
      * rewrite lookup_insert_eq. by intros [= <-].
      * rewrite lookup_insert_ne by done. apply Hne.
Qed.

(** The preferred versions are a function of which pairs were recorded. *)
Lemma preferred_of_same_pairs (pairs1 pairs2 : list (string * string))
    (index1 index2 : gmap string (list string)) :
  record_all pairs1 ∅ = inr index1 ->
  record_all pairs2 ∅ = inr index2 ->
  (forall n x, recorded index1 n x <-> recorded index2 n x) ->
  getPreferredVersions index1 = getPreferredVersions index2.
Proof.
  intros H1 H2 Hsame.
  assert (Hne1 := record_all_nonempty _ _ _ H1
                    ltac:(intros n vs H; by rewrite lookup_empty in H)).
  assert (Hne2 := record_all_nonempty _ _ _ H2
                    ltac:(intros n vs H; by rewrite lookup_empty in H)).
  assert (Hin : forall (index : gmap string (list string)) n vs x,
            index !! n = Some vs -> recorded index n x <-> x ∈ vs).
  { intros index n vs x Hn. unfold recorded. rewrite Hn. split.
    - by intros (vs' & [= <-] & Hx).
    - intros Hx. by exists vs. }
  apply map_eq. intros n. destruct (decide (n = "__proto__")) as [->|Hn].
  { unfold getPreferredVersions. rewrite !map_lookup_imap.
    by destruct (index1 !! "__proto__"), (index2 !! "__proto__"). }
  rewrite !preferred_lookup by done.
  destruct (index1 !! n) as [vs1|] eqn:E1, (index2 !! n) as [vs2|] eqn:E2;
    simpl; [| | |done].
  - f_equal. apply map_eq. intros x. rewrite !tag_fold_lookup.
    rewrite (bool_decide_ext (x ∈ vs1 /\ x <> "__proto__")
               (x ∈ vs2 /\ x <> "__proto__")); [done|].
    rewrite <- (Hin index1 n vs1 x E1), <- (Hin index2 n vs2 x E2), Hsame.
    done.
  - exfalso. destruct vs1 as [|x vs1]; [by apply (Hne1 n [])|].
    assert (recorded index2 n x) as (vs & Hvs & _).
    { apply Hsame, (Hin index1 n (x :: vs1) x E1). by left. }
    congruence.
  - exfalso. destruct vs2 as [|x vs2]; [by apply (Hne2 n [])|].
    assert (recorded index1 n x) as (vs & Hvs & _).
    { apply Hsame, (Hin index2 n (x :: vs2) x E2). by left. }
    congruence.
Qed.

End Extractions.

(** X20.  The npm extraction, end to end: when the npm lock is read and no
    package name in its tree is a property of [Object.prototype], the
    extraction returns preferred versions in which a name has the tag
    ["version"] for a version exactly when some node of the tree, at any
    depth, has that name and version (the version [__proto__] apart), and
    in which no other tag occurs. *)
Theorem npm_extraction_preferred (E : ImportCommand.Collaborators)
    (dir : string) (lock : ImportCommand.LockedPackage) :
  ImportCommand.readNpmLockfile E dir = inr lock ->
  Forall (fun p => JS.inherited (fst p) = false) (ImportCommand.nodes lock) ->
  exists pv : gmap string (gmap string string),
    ImportCommand.npm_extraction E dir = inr pv
    /\ (forall n x, x <> "__proto__" ->
        (exists tags, pv !! n = Some tags /\ tags !! x = Some "version")
        <-> (n, x) ∈ ImportCommand.nodes lock)
    /\ (forall n tags x t,
        pv !! n = Some tags -> tags !! x = Some t -> t = "version").
Proof.
  intros Hread Hok.
  destruct (npm_walk_records lock Hok) as (index & Hwalk & _ & _ & Hpv & Htag).
  exists (ImportCommand.getPreferredVersions index).
  unfold ImportCommand.npm_extraction. by rewrite Hread, Hwalk.
Qed.

Lemma npm_extraction_preferred_witness :
  exists pv : gmap string (gmap string string),
    ImportCommand.npm_extraction
      (ImportDemo.directory None (Some ImportDemo.lodash_lock) None) "p"
    = inr pv
    /\ exists tags, pv !! "debug" = Some tags
                    /\ tags !! "1.0.0" = Some "version".
Proof.
  destruct (npm_extraction_preferred
              (ImportDemo.directory None (Some ImportDemo.lodash_lock) None)
              "p" ImportDemo.lodash_lock eq_refl)
    as (pv & Hpv & Hiff & _).
  { repeat constructor. }
  exists pv. split; [exact Hpv|].
  apply Hiff; [discriminate|]. right. left.
Defined.

(** X21.  The yarn extraction, end to end: when the yarn lock is read and
    no key names a property of [Object.prototype], the extraction returns
    preferred versions in which a name has the tag ["version"] for a
    version exactly when some key of the lock has that name before its last
    [@] and that version (the version [__proto__] apart), and in which no
    other tag occurs. *)
Theorem yarn_extraction_preferred (E : ImportCommand.Collaborators)
    (dir : string)
    (lock : list (string * ImportCommand.YarnLockPackage)) :
  ImportCommand.readYarnLockFile E dir = inr lock ->
  Forall (fun k => JS.inherited (ImportCommand.pkgName (fst k)) = false) lock ->
  exists pv : gmap string (gmap string string),
    ImportCommand.yarn_extraction E dir = inr pv
    /\ (forall n x, x <> "__proto__" ->
        (exists tags, pv !! n = Some tags /\ tags !! x = Some "version")
        <-> exists key e, (key, e) ∈ lock
              /\ ImportCommand.pkgName key = n
              /\ ImportCommand.yarn_version e = x)
    /\ (forall n tags x t,
        pv !! n = Some tags -> tags !! x = Some t -> t = "version").
Proof.
  intros Hread Hok.
  destruct (preferred_of_pairs (ImportCommand.yarn_pairs lock))
    as (index & Hrec & _ & _ & Hpv & Htag).
  { unfold ImportCommand.yarn_pairs. by apply Forall_fmap. }
  exists (ImportCommand.getPreferredVersions index).
  unfold ImportCommand.yarn_extraction.
  rewrite Hread, yarn_walk_all, Hrec. split; [done|]. split; [|done].
  intros n x Hx. rewrite (Hpv n x Hx).
  unfold ImportCommand.yarn_pairs. rewrite list_elem_of_fmap. split.
  - intros ([key e] & [= -> ->] & Hin). by exists key, e.
  - intros (key & e & Hin & <- & <-). by exists (key, e).
Qed.

Lemma yarn_extraction_preferred_witness :
  exists pv : gmap string (gmap string string),
    ImportCommand.yarn_extraction
      (ImportDemo.directory
         (Some [("lodash@^4.17.0", ImportDemo.entry "4.17.21")]) None None)
      "p" = inr pv
    /\ exists tags, pv !! "lodash" = Some tags
                    /\ tags !! "4.17.21" = Some "version".
Proof.
  destruct (yarn_extraction_preferred
              (ImportDemo.directory
                 (Some [("lodash@^4.17.0", ImportDemo.entry "4.17.21")])
                 None None)
              "p" [("lodash@^4.17.0", ImportDemo.entry "4.17.21")] eq_refl)
    as (pv & Hpv & Hiff & _).
  { repeat constructor. }
  exists pv. split; [exact Hpv|].
  apply Hiff; [discriminate|].
  exists "lodash@^4.17.0", (ImportDemo.entry "4.17.21").
  split; [by left|]. split; reflexivity.
Defined.

(** A recording that succeeds met no inherited name that was not already
    an own property. *)
Lemma record_all_names (pairs : list (string * string))
    (acc acc' : gmap string (list string)) :
  ImportCommand.record_all pairs acc = inr acc' ->
  Forall (fun p => JS.inherited (fst p) = false \/ is_Some (acc !! fst p))
    pairs.
Proof.
  revert acc. induction pairs as [|[name v] pairs IH]; intros acc; [done|].
  rewrite record_all_cons. simpl.
  destruct (ImportCommand.record_version name v acc) as [e|acc1] eqn:Hrec;
    [done|].
  intros Hrest. specialize (IH acc1 Hrest).
  assert (Hname : JS.inherited name = false \/ is_Some (acc !! name)).
  { unfold ImportCommand.record_version in Hrec.
    destruct (acc !! name) as [old|]; [right; by eexists|].
    destruct (JS.inherited name); [done|by left]. }
  assert (Hacc1 : forall n, is_Some (acc1 !! n) ->
                            n = name \/ is_Some (acc !! n)).
  { intros n Hn. rewrite (record_version_ok name v acc Hname) in Hrec.
    injection Hrec as <-. destruct (decide (n = name)) as [->|Hne];
      [by left|]. right. by rewrite lookup_insert_ne in Hn. }
  constructor; [exact Hname|].
  eapply Forall_impl; [exact IH|]. intros [n x]. simpl.
  intros [H|H]; [by left|].
  destruct (Hacc1 n H) as [->|H']; [exact Hname | by right].
Qed.

(** X22.  The preferred versions depend only on which (name, version)
    pairs the npm tree holds, not on the order of the dependencies, on the
    depth at which a package sits or on how often it occurs: two trees
    that are walked and hold the same pairs give the same preferred
    versions. *)
Theorem npm_preferred_order_independent
    (lock1 lock2 : ImportCommand.LockedPackage)
    (index1 index2 : gmap string (list string)) :
  ImportCommand.getAllVersionsByPackageNames lock1 ∅ = inr index1 ->
  ImportCommand.getAllVersionsByPackageNames lock2 ∅ = inr index2 ->
  (forall p, p ∈ ImportCommand.nodes lock1 <-> p ∈ ImportCommand.nodes lock2) ->
  ImportCommand.getPreferredVersions index1
  = ImportCommand.getPreferredVersions index2.
Proof.
  intros H1 H2 Hsame.
  rewrite npm_walk_all in H1, H2.
  assert (Hok : forall pairs index,
            ImportCommand.record_all pairs ∅ = inr index ->
            Forall (fun p => JS.inherited (fst p) = false) pairs).
  { intros pairs index H. eapply Forall_impl; [exact (record_all_names _ _ _ H)|].
    intros p [Hp|[vs Hp]]; [done|]. by rewrite lookup_empty in Hp. }
  apply (preferred_of_same_pairs _ _ _ _ H1 H2).
  destruct (record_all_ok _ ∅ (Hok _ _ H1)) as (i1 & Hr1 & Hiff1 & _).
  destruct (record_all_ok _ ∅ (Hok _ _ H2)) as (i2 & Hr2 & Hiff2 & _).
  assert (i1 = index1) as -> by congruence.
  assert (i2 = index2) as -> by congruence.
  intros n x. rewrite Hiff1, Hiff2.
  split; (intros [H|H]; [by apply recorded_empty in H|]); right;
    by apply Hsame.
Qed.

Lemma npm_preferred_order_independent_witness :
  ImportCommand.getPreferredVersions
    (list_to_map [("lodash", ["4.17.0"]); ("debug", ["1.0.0"])])
  = ImportCommand.getPreferredVersions
      (list_to_map [("debug", ["1.0.0"]); ("lodash", ["4.17.0"])]).
Proof.
  apply (npm_preferred_order_independent ImportDemo.lodash_lock
           ImportDemo.lodash_lock_hoisted).
  - vm_compute. reflexivity.
  - vm_compute. reflexivity.
  - intros p. cbn. rewrite !elem_of_cons. naive_solver.
Defined.

Lemma createLockfileObject_fresh_witness :
  JS.get (Read.createLockfileObject (JS.VNum "5.4") ["."; "packages/a"; "."] "0")
    "lockfileVersion" = JS.VNum "5.4"
  /\ JS.get (Read.createLockfileObject (JS.VNum "5.4") ["."; "packages/a"; "."]
               "0") "packages" = JS.VUndef.
Proof.
  destruct (createLockfileObject_fresh (JS.VNum "5.4")
              ["."; "packages/a"; "."] "0")
    as (importers & _ & _ & Hversion & Hother & _).
  split.
  - exact Hversion.
  - apply Hother; discriminate.
Defined.

(** A fresh lockfile for two importers, one given twice. *)
Example createLockfileObject_two :
  Read.createLockfileObject (JS.VNum "5.4") ["."; "packages/a"; "."] "5.3"
  = Demo.obj
      [("importers",
        Demo.obj [(".", Read.empty_importer);
                  ("packages/a", Read.empty_importer)]);
       ("lockfileVersion", JS.VNum "5.3")].
Proof. vm_compute. reflexivity. Qed.
